(** * URL discovery: a shallow embedding of [cuban_URL.py]

    The development follows class [CubanURLDiscovery]: domain
    normalisation ([clean_domain], [load_domains]), the single request
    checker ([check_url], [extract_title]), the host prober
    ([probe_domain]), the dispatcher ([probe_all_domains]) and the
    summary ([generate_summary_report]). *)

From Stdlib Require Import NArith ZArith Lia Bool Ascii String.
From stdpp Require Import gmap list strings sorting.

Local Open Scope Z_scope.

(** ** Python [str] values

    A Python string is a sequence of Unicode code points, so it is
    modelled as a list of code points and not as a byte string: the
    methods used by the program ([lower], [strip]) are defined on code
    points, and [lower] is not length preserving on all of them. *)

Module PyStr.

Abbreviation char := N (only parsing).
Abbreviation str := (list N) (only parsing).

(** String literals of the source are written [py "..."]. *)
Definition py (s : string) : str :=
  map Ascii.N_of_ascii (String.list_ascii_of_string s).

Definition ch (a : Ascii.ascii) : char := Ascii.N_of_ascii a.
Arguments ch a%_char.

(** [len(s)] *)
Definition len (s : str) : Z := Z.of_nat (length s).

(** [s.startswith(prefix)] *)
Fixpoint startswith (prefix s : str) : bool :=
  match prefix, s with
  | [], _ => true
  | _ :: _, [] => false
  | p :: prefix', c :: s' => (p =? c)%N && startswith prefix' s'
  end.

(** [c in s] for a one-character string [c]. *)
Definition contains (c : char) (s : str) : bool :=
  existsb (N.eqb c) s.

(** *** Lower case

    [str.lower] follows the Unicode tables of the interpreter, here
    those of Unicode 14.0 (CPython 3.11): the simple lower-case form of
    every code point that has one, the one special casing, of U+0130,
    and the rule of the final sigma, for which the interpreter looks at
    the cased and the case-ignorable code points around a capital
    sigma. *)

(** The code points with another lower-case form, in runs:
    [(lo, hi, step, lo')] says that [lo], [lo + step], ..., [hi] have
    the lower-case forms [lo'], [lo' + step], ... *)
Definition lower_runs : list (N * N * N * N) := [
   (65, 90, 1, 97); (192, 214, 1, 224); (216, 222, 1, 248);
   (256, 302, 2, 257); (306, 310, 2, 307); (313, 327, 2, 314);
   (330, 374, 2, 331); (376, 376, 1, 255); (377, 381, 2, 378);
   (385, 385, 1, 595); (386, 388, 2, 387); (390, 390, 1, 596);
   (391, 391, 1, 392); (393, 394, 1, 598); (395, 395, 1, 396);
   (398, 398, 1, 477); (399, 399, 1, 601); (400, 400, 1, 603);
   (401, 401, 1, 402); (403, 403, 1, 608); (404, 404, 1, 611);
   (406, 406, 1, 617); (407, 407, 1, 616); (408, 408, 1, 409);
   (412, 412, 1, 623); (413, 413, 1, 626); (415, 415, 1, 629);
   (416, 420, 2, 417); (422, 422, 1, 640); (423, 423, 1, 424);
   (425, 425, 1, 643); (428, 428, 1, 429); (430, 430, 1, 648);
   (431, 431, 1, 432); (433, 434, 1, 650); (435, 437, 2, 436);
   (439, 439, 1, 658); (440, 440, 1, 441); (444, 444, 1, 445);
   (452, 452, 1, 454); (453, 453, 1, 454); (455, 455, 1, 457);
   (456, 456, 1, 457); (458, 458, 1, 460); (459, 475, 2, 460);
   (478, 494, 2, 479); (497, 497, 1, 499); (498, 500, 2, 499);
   (502, 502, 1, 405); (503, 503, 1, 447); (504, 542, 2, 505);
   (544, 544, 1, 414); (546, 562, 2, 547); (570, 570, 1, 11365);
   (571, 571, 1, 572); (573, 573, 1, 410); (574, 574, 1, 11366);
   (577, 577, 1, 578); (579, 579, 1, 384); (580, 580, 1, 649);
   (581, 581, 1, 652); (582, 590, 2, 583); (880, 882, 2, 881);
   (886, 886, 1, 887); (895, 895, 1, 1011); (902, 902, 1, 940);
   (904, 906, 1, 941); (908, 908, 1, 972); (910, 911, 1, 973);
   (913, 929, 1, 945); (931, 939, 1, 963); (975, 975, 1, 983);
   (984, 1006, 2, 985); (1012, 1012, 1, 952); (1015, 1015, 1, 1016);
   (1017, 1017, 1, 1010); (1018, 1018, 1, 1019); (1021, 1023, 1, 891);
   (1024, 1039, 1, 1104); (1040, 1071, 1, 1072); (1120, 1152, 2, 1121);
   (1162, 1214, 2, 1163); (1216, 1216, 1, 1231); (1217, 1229, 2, 1218);
   (1232, 1326, 2, 1233); (1329, 1366, 1, 1377); (4256, 4293, 1, 11520);
   (4295, 4295, 1, 11559); (4301, 4301, 1, 11565); (5024, 5103, 1, 43888);
   (5104, 5109, 1, 5112); (7312, 7354, 1, 4304); (7357, 7359, 1, 4349);
   (7680, 7828, 2, 7681); (7838, 7838, 1, 223); (7840, 7934, 2, 7841);
   (7944, 7951, 1, 7936); (7960, 7965, 1, 7952); (7976, 7983, 1, 7968);
   (7992, 7999, 1, 7984); (8008, 8013, 1, 8000); (8025, 8031, 2, 8017);
   (8040, 8047, 1, 8032); (8072, 8079, 1, 8064); (8088, 8095, 1, 8080);
   (8104, 8111, 1, 8096); (8120, 8121, 1, 8112); (8122, 8123, 1, 8048);
   (8124, 8124, 1, 8115); (8136, 8139, 1, 8050); (8140, 8140, 1, 8131);
   (8152, 8153, 1, 8144); (8154, 8155, 1, 8054); (8168, 8169, 1, 8160);
   (8170, 8171, 1, 8058); (8172, 8172, 1, 8165); (8184, 8185, 1, 8056);
   (8186, 8187, 1, 8060); (8188, 8188, 1, 8179); (8486, 8486, 1, 969);
   (8490, 8490, 1, 107); (8491, 8491, 1, 229); (8498, 8498, 1, 8526);
   (8544, 8559, 1, 8560); (8579, 8579, 1, 8580); (9398, 9423, 1, 9424);
   (11264, 11311, 1, 11312); (11360, 11360, 1, 11361);
   (11362, 11362, 1, 619); (11363, 11363, 1, 7549); (11364, 11364, 1, 637);
   (11367, 11371, 2, 11368); (11373, 11373, 1, 593); (11374, 11374, 1, 625);
   (11375, 11375, 1, 592); (11376, 11376, 1, 594); (11378, 11378, 1, 11379);
   (11381, 11381, 1, 11382); (11390, 11391, 1, 575);
   (11392, 11490, 2, 11393); (11499, 11501, 2, 11500);
   (11506, 11506, 1, 11507); (42560, 42604, 2, 42561);
   (42624, 42650, 2, 42625); (42786, 42798, 2, 42787);
   (42802, 42862, 2, 42803); (42873, 42875, 2, 42874);
   (42877, 42877, 1, 7545); (42878, 42886, 2, 42879);
   (42891, 42891, 1, 42892); (42893, 42893, 1, 613);
   (42896, 42898, 2, 42897); (42902, 42920, 2, 42903);
   (42922, 42922, 1, 614); (42923, 42923, 1, 604); (42924, 42924, 1, 609);
   (42925, 42925, 1, 620); (42926, 42926, 1, 618); (42928, 42928, 1, 670);
   (42929, 42929, 1, 647); (42930, 42930, 1, 669); (42931, 42931, 1, 43859);
   (42932, 42946, 2, 42933); (42948, 42948, 1, 42900);
   (42949, 42949, 1, 642); (42950, 42950, 1, 7566); (42951, 42953, 2, 42952);
   (42960, 42960, 1, 42961); (42966, 42968, 2, 42967);
   (42997, 42997, 1, 42998); (65313, 65338, 1, 65345);
   (66560, 66599, 1, 66600); (66736, 66771, 1, 66776);
   (66928, 66964, 2, 66967); (66929, 66938, 1, 66968);
   (66941, 66954, 1, 66980); (66957, 66962, 1, 66996);
   (66965, 66965, 1, 67004); (68736, 68786, 1, 68800);
   (71840, 71871, 1, 71872); (93760, 93791, 1, 93792);
   (125184, 125217, 1, 125218) ]%N.

Fixpoint lower_lookup (runs : list (N * N * N * N)) (c : char) : char :=
  match runs with
  | [] => c
  | (lo, hi, step, lo') :: runs' =>
      if ((lo <=? c) && (c <=? hi) && ((c - lo) mod step =? 0))%N
      then (lo' + (c - lo))%N
      else lower_lookup runs' c
  end.

Definition lower_one (c : char) : char := lower_lookup lower_runs c.

(** [str.lower] on one code point that is not a capital sigma
    ([_PyUnicode_ToLowerFull]).  U+0130 (capital I with dot above)
    becomes the two code points U+0069 U+0307; it is the only code point
    whose lower-case form has another length. *)
Definition lower_char (c : char) : str :=
  if (c =? 304)%N then [105; 775]%N else [lower_one c].

(** The cased code points ([_PyUnicode_IsCased]). *)
Definition cased_ranges : list (N * N) := [
   (65, 90); (97, 122); (170, 170); (181, 181); (186, 186); (192, 214);
   (216, 246); (248, 442); (444, 447); (452, 659); (661, 696); (704, 705);
   (736, 740); (837, 837); (880, 883); (886, 887); (890, 893); (895, 895);
   (902, 902); (904, 906); (908, 908); (910, 929); (931, 1013); (1015, 1153);
   (1162, 1327); (1329, 1366); (1376, 1416); (4256, 4293); (4295, 4295);
   (4301, 4301); (4304, 4346); (4349, 4351); (5024, 5109); (5112, 5117);
   (7296, 7304); (7312, 7354); (7357, 7359); (7424, 7615); (7680, 7957);
   (7960, 7965); (7968, 8005); (8008, 8013); (8016, 8023); (8025, 8025);
   (8027, 8027); (8029, 8029); (8031, 8061); (8064, 8116); (8118, 8124);
   (8126, 8126); (8130, 8132); (8134, 8140); (8144, 8147); (8150, 8155);
   (8160, 8172); (8178, 8180); (8182, 8188); (8305, 8305); (8319, 8319);
   (8336, 8348); (8450, 8450); (8455, 8455); (8458, 8467); (8469, 8469);
   (8473, 8477); (8484, 8484); (8486, 8486); (8488, 8488); (8490, 8493);
   (8495, 8500); (8505, 8505); (8508, 8511); (8517, 8521); (8526, 8526);
   (8544, 8575); (8579, 8580); (9398, 9449); (11264, 11492); (11499, 11502);
   (11506, 11507); (11520, 11557); (11559, 11559); (11565, 11565);
   (42560, 42605); (42624, 42653); (42786, 42887); (42891, 42894);
   (42896, 42954); (42960, 42961); (42963, 42963); (42965, 42969);
   (42997, 42998); (43000, 43002); (43824, 43866); (43868, 43880);
   (43888, 43967); (64256, 64262); (64275, 64279); (65313, 65338);
   (65345, 65370); (66560, 66639); (66736, 66771); (66776, 66811);
   (66928, 66938); (66940, 66954); (66956, 66962); (66964, 66965);
   (66967, 66977); (66979, 66993); (66995, 67001); (67003, 67004);
   (67456, 67456); (67459, 67461); (67463, 67504); (67506, 67514);
   (68736, 68786); (68800, 68850); (71840, 71903); (93760, 93823);
   (119808, 119892); (119894, 119964); (119966, 119967); (119970, 119970);
   (119973, 119974); (119977, 119980); (119982, 119993); (119995, 119995);
   (119997, 120003); (120005, 120069); (120071, 120074); (120077, 120084);
   (120086, 120092); (120094, 120121); (120123, 120126); (120128, 120132);
   (120134, 120134); (120138, 120144); (120146, 120485); (120488, 120512);
   (120514, 120538); (120540, 120570); (120572, 120596); (120598, 120628);
   (120630, 120654); (120656, 120686); (120688, 120712); (120714, 120744);
   (120746, 120770); (120772, 120779); (122624, 122633); (122635, 122654);
   (125184, 125251); (127280, 127305); (127312, 127337); (127344, 127369) ]%N.

(** The case-ignorable code points ([_PyUnicode_IsCaseIgnorable]). *)
Definition case_ignorable_ranges : list (N * N) := [
   (39, 39); (46, 46); (58, 58); (94, 94); (96, 96); (168, 168); (173, 173);
   (175, 175); (180, 180); (183, 184); (688, 879); (884, 885); (890, 890);
   (900, 901); (903, 903); (1155, 1161); (1369, 1369); (1375, 1375);
   (1425, 1469); (1471, 1471); (1473, 1474); (1476, 1477); (1479, 1479);
   (1524, 1524); (1536, 1541); (1552, 1562); (1564, 1564); (1600, 1600);
   (1611, 1631); (1648, 1648); (1750, 1757); (1759, 1768); (1770, 1773);
   (1807, 1807); (1809, 1809); (1840, 1866); (1958, 1968); (2027, 2037);
   (2042, 2042); (2045, 2045); (2070, 2093); (2137, 2139); (2184, 2184);
   (2192, 2193); (2200, 2207); (2249, 2306); (2362, 2362); (2364, 2364);
   (2369, 2376); (2381, 2381); (2385, 2391); (2402, 2403); (2417, 2417);
   (2433, 2433); (2492, 2492); (2497, 2500); (2509, 2509); (2530, 2531);
   (2558, 2558); (2561, 2562); (2620, 2620); (2625, 2626); (2631, 2632);
   (2635, 2637); (2641, 2641); (2672, 2673); (2677, 2677); (2689, 2690);
   (2748, 2748); (2753, 2757); (2759, 2760); (2765, 2765); (2786, 2787);
   (2810, 2815); (2817, 2817); (2876, 2876); (2879, 2879); (2881, 2884);
   (2893, 2893); (2901, 2902); (2914, 2915); (2946, 2946); (3008, 3008);
   (3021, 3021); (3072, 3072); (3076, 3076); (3132, 3132); (3134, 3136);
   (3142, 3144); (3146, 3149); (3157, 3158); (3170, 3171); (3201, 3201);
   (3260, 3260); (3263, 3263); (3270, 3270); (3276, 3277); (3298, 3299);
   (3328, 3329); (3387, 3388); (3393, 3396); (3405, 3405); (3426, 3427);
   (3457, 3457); (3530, 3530); (3538, 3540); (3542, 3542); (3633, 3633);
   (3636, 3642); (3654, 3662); (3761, 3761); (3764, 3772); (3782, 3782);
   (3784, 3789); (3864, 3865); (3893, 3893); (3895, 3895); (3897, 3897);
   (3953, 3966); (3968, 3972); (3974, 3975); (3981, 3991); (3993, 4028);
   (4038, 4038); (4141, 4144); (4146, 4151); (4153, 4154); (4157, 4158);
   (4184, 4185); (4190, 4192); (4209, 4212); (4226, 4226); (4229, 4230);
   (4237, 4237); (4253, 4253); (4348, 4348); (4957, 4959); (5906, 5908);
   (5938, 5939); (5970, 5971); (6002, 6003); (6068, 6069); (6071, 6077);
   (6086, 6086); (6089, 6099); (6103, 6103); (6109, 6109); (6155, 6159);
   (6211, 6211); (6277, 6278); (6313, 6313); (6432, 6434); (6439, 6440);
   (6450, 6450); (6457, 6459); (6679, 6680); (6683, 6683); (6742, 6742);
   (6744, 6750); (6752, 6752); (6754, 6754); (6757, 6764); (6771, 6780);
   (6783, 6783); (6823, 6823); (6832, 6862); (6912, 6915); (6964, 6964);
   (6966, 6970); (6972, 6972); (6978, 6978); (7019, 7027); (7040, 7041);
   (7074, 7077); (7080, 7081); (7083, 7085); (7142, 7142); (7144, 7145);
   (7149, 7149); (7151, 7153); (7212, 7219); (7222, 7223); (7288, 7293);
   (7376, 7378); (7380, 7392); (7394, 7400); (7405, 7405); (7412, 7412);
   (7416, 7417); (7468, 7530); (7544, 7544); (7579, 7679); (8125, 8125);
   (8127, 8129); (8141, 8143); (8157, 8159); (8173, 8175); (8189, 8190);
   (8203, 8207); (8216, 8217); (8228, 8228); (8231, 8231); (8234, 8238);
   (8288, 8292); (8294, 8303); (8305, 8305); (8319, 8319); (8336, 8348);
   (8400, 8432); (11388, 11389); (11503, 11505); (11631, 11631);
   (11647, 11647); (11744, 11775); (11823, 11823); (12293, 12293);
   (12330, 12333); (12337, 12341); (12347, 12347); (12441, 12446);
   (12540, 12542); (40981, 40981); (42232, 42237); (42508, 42508);
   (42607, 42610); (42612, 42621); (42623, 42623); (42652, 42655);
   (42736, 42737); (42752, 42785); (42864, 42864); (42888, 42890);
   (42994, 42996); (43000, 43001); (43010, 43010); (43014, 43014);
   (43019, 43019); (43045, 43046); (43052, 43052); (43204, 43205);
   (43232, 43249); (43263, 43263); (43302, 43309); (43335, 43345);
   (43392, 43394); (43443, 43443); (43446, 43449); (43452, 43453);
   (43471, 43471); (43493, 43494); (43561, 43566); (43569, 43570);
   (43573, 43574); (43587, 43587); (43596, 43596); (43632, 43632);
   (43644, 43644); (43696, 43696); (43698, 43700); (43703, 43704);
   (43710, 43711); (43713, 43713); (43741, 43741); (43756, 43757);
   (43763, 43764); (43766, 43766); (43867, 43871); (43881, 43883);
   (44005, 44005); (44008, 44008); (44013, 44013); (64286, 64286);
   (64434, 64450); (65024, 65039); (65043, 65043); (65056, 65071);
   (65106, 65106); (65109, 65109); (65279, 65279); (65287, 65287);
   (65294, 65294); (65306, 65306); (65342, 65342); (65344, 65344);
   (65392, 65392); (65438, 65439); (65507, 65507); (65529, 65531);
   (66045, 66045); (66272, 66272); (66422, 66426); (67456, 67461);
   (67463, 67504); (67506, 67514); (68097, 68099); (68101, 68102);
   (68108, 68111); (68152, 68154); (68159, 68159); (68325, 68326);
   (68900, 68903); (69291, 69292); (69446, 69456); (69506, 69509);
   (69633, 69633); (69688, 69702); (69744, 69744); (69747, 69748);
   (69759, 69761); (69811, 69814); (69817, 69818); (69821, 69821);
   (69826, 69826); (69837, 69837); (69888, 69890); (69927, 69931);
   (69933, 69940); (70003, 70003); (70016, 70017); (70070, 70078);
   (70089, 70092); (70095, 70095); (70191, 70193); (70196, 70196);
   (70198, 70199); (70206, 70206); (70367, 70367); (70371, 70378);
   (70400, 70401); (70459, 70460); (70464, 70464); (70502, 70508);
   (70512, 70516); (70712, 70719); (70722, 70724); (70726, 70726);
   (70750, 70750); (70835, 70840); (70842, 70842); (70847, 70848);
   (70850, 70851); (71090, 71093); (71100, 71101); (71103, 71104);
   (71132, 71133); (71219, 71226); (71229, 71229); (71231, 71232);
   (71339, 71339); (71341, 71341); (71344, 71349); (71351, 71351);
   (71453, 71455); (71458, 71461); (71463, 71467); (71727, 71735);
   (71737, 71738); (71995, 71996); (71998, 71998); (72003, 72003);
   (72148, 72151); (72154, 72155); (72160, 72160); (72193, 72202);
   (72243, 72248); (72251, 72254); (72263, 72263); (72273, 72278);
   (72281, 72283); (72330, 72342); (72344, 72345); (72752, 72758);
   (72760, 72765); (72767, 72767); (72850, 72871); (72874, 72880);
   (72882, 72883); (72885, 72886); (73009, 73014); (73018, 73018);
   (73020, 73021); (73023, 73029); (73031, 73031); (73104, 73105);
   (73109, 73109); (73111, 73111); (73459, 73460); (78896, 78904);
   (92912, 92916); (92976, 92982); (92992, 92995); (94031, 94031);
   (94095, 94111); (94176, 94177); (94179, 94180); (110576, 110579);
   (110581, 110587); (110589, 110590); (113821, 113822); (113824, 113827);
   (118528, 118573); (118576, 118598); (119143, 119145); (119155, 119170);
   (119173, 119179); (119210, 119213); (119362, 119364); (121344, 121398);
   (121403, 121452); (121461, 121461); (121476, 121476); (121499, 121503);
   (121505, 121519); (122880, 122886); (122888, 122904); (122907, 122913);
   (122915, 122916); (122918, 122922); (123184, 123197); (123566, 123566);
   (123628, 123631); (125136, 125142); (125252, 125259); (127995, 127999);
   (917505, 917505); (917536, 917631); (917760, 917999) ]%N.

Definition in_ranges (ranges : list (N * N)) (c : char) : bool :=
  existsb (λ r, (fst r <=? c) && (c <=? snd r))%N ranges.

Definition is_cased (c : char) : bool := in_ranges cased_ranges c.

Definition is_case_ignorable (c : char) : bool :=
  in_ranges case_ignorable_ranges c.

Fixpoint skip_case_ignorable (s : str) : str :=
  match s with
  | [] => []
  | c :: s' => if is_case_ignorable c then skip_case_ignorable s' else s
  end.

(** Whether a capital sigma is the last letter of a word
    ([handle_capital_sigma]): a cased code point precedes it and none
    follows it, case-ignorable code points set aside.  [before] is the
    text in front of the sigma, the nearest code point first. *)
Definition final_sigma (before after : str) : bool :=
  match skip_case_ignorable before with
  | [] => false
  | c :: _ =>
      is_cased c
      && match skip_case_ignorable after with
         | [] => true
         | c' :: _ => negb (is_cased c')
         end
  end.

(** The lower-case form of the code point [c] of a text ([lower_ucs4]). *)
Definition lower_at (before : str) (c : char) (after : str) : str :=
  if (c =? 931)%N then [if final_sigma before after then 962 else 963]%N
  else lower_char c.

(** The lower-case form of the part [s] of a text that has [before] in
    front of it, the nearest code point first, and [after] behind it. *)
Fixpoint lower_in (before s after : str) : str :=
  match s with
  | [] => []
  | c :: s' => lower_at before c (s' ++ after) ++ lower_in (c :: before) s' after
  end.

(** [s.lower()] *)
Definition lower (s : str) : str := lower_in [] s [].

(** [c.isspace()]: the code points [str.strip()] removes. *)
Definition isspace (c : char) : bool :=
  ((9 <=? c) && (c <=? 13) || (28 <=? c) && (c <=? 32)
   || (c =? 133) || (c =? 160) || (c =? 5760)
   || (8192 <=? c) && (c <=? 8202)
   || (c =? 8232) || (c =? 8233) || (c =? 8239) || (c =? 8287)
   || (c =? 12288))%N.

Fixpoint lstrip (s : str) : str :=
  match s with
  | [] => []
  | c :: s' => if isspace c then lstrip s' else s
  end.

Definition rstrip (s : str) : str := rev (lstrip (rev s)).

(** [s.strip()] *)
Definition strip (s : str) : str := rstrip (lstrip s).

(** An index of a slice: negative indices count from the end, and the
    result is clamped to [0, len]. *)
Definition slice_index (n i : Z) : Z :=
  if i <? 0 then Z.max 0 (i + n) else Z.min i n.

(** [s[i:j]] *)
Definition slice (s : str) (i j : Z) : str :=
  let a := slice_index (len s) i in
  let b := slice_index (len s) j in
  take (Z.to_nat (b - a)) (drop (Z.to_nat a) s).

(** [s[i:]] *)
Definition slice_from (s : str) (i : Z) : str :=
  drop (Z.to_nat (slice_index (len s) i)) s.

(** [s[:j]] *)
Definition slice_to (s : str) (j : Z) : str :=
  take (Z.to_nat (slice_index (len s) j)) s.

Fixpoint find_at (sub s : str) (pos : Z) : Z :=
  if startswith sub s then pos
  else match s with
       | [] => -1
       | _ :: s' => find_at sub s' (pos + 1)
       end.

(** [s.find(sub, start)]: the lowest index at or after [start] where
    [sub] occurs, [-1] when there is none. *)
Definition find (sub s : str) (start : Z) : Z :=
  let a := if start <? 0 then Z.max 0 (start + len s) else start in
  if len s - a <? len sub then -1
  else find_at sub (drop (Z.to_nat a) s) a.

(** [s.split(sep)] for a one-character separator. *)
Fixpoint split (sep : char) (s : str) : list str :=
  match s with
  | [] => [[]]
  | c :: s' =>
      if (c =? sep)%N then [] :: split sep s'
      else match split sep s' with
           | h :: t => (c :: h) :: t
           | [] => [[c]]
           end
  end.

(** [l[0]] on the result of [split], which is never empty. *)
Definition first (l : list str) : str := hd [] l.

(** [s.replace(old, new)] for a non-empty [old]: the occurrences of [old]
    are replaced from left to right, without overlap.  [skip] counts the
    characters of an occurrence that remain to be dropped. *)
Fixpoint replace_from (old new s : str) (skip : nat) : str :=
  match s with
  | [] => []
  | c :: s' =>
      match skip with
      | S k => replace_from old new s' k
      | O =>
          if startswith old s then new ++ replace_from old new s' (pred (length old))
          else c :: replace_from old new s' O
      end
  end.

Definition replace (old new s : str) : str := replace_from old new s O.

End PyStr.

Import PyStr.

(** ** Domain normalisation *)

Definition s_http : str := Eval cbv in py "http://".
Definition s_https : str := Eval cbv in py "https://".
Definition s_www : str := Eval cbv in py "www.".

(** [clean_domain]: remove protocol and paths from a domain. *)
Definition clean_domain (domain : str) : str :=
  let domain := strip domain in
  (* Remove protocol if present *)
  let domain :=
    if startswith s_http domain then slice_from domain 7
    else if startswith s_https domain then slice_from domain 8
    else domain in
  (* Remove www. prefix *)
  let domain :=
    if startswith s_www domain then slice_from domain 4 else domain in
  (* Remove trailing slash and paths *)
  let domain :=
    first (split (ch "#") (first (split (ch "?") (first (split (ch "/") domain))))) in
  (* Remove port if present *)
  let domain :=
    if contains (ch ":") domain then first (split (ch ":") domain) else domain in
  lower domain.

(** ** Title extraction *)

Definition s_title_open : str := Eval cbv in py "<title>".
Definition s_title_close : str := Eval cbv in py "</title>".

(** [extract_title]: the body of the [try] block cannot raise on a
    string, so the bare [except] is not reached and only the two
    returns remain. *)
Definition extract_title (html : str) : str :=
  let start := find s_title_open (lower html) 0 in
  if negb (start =? -1) then
    let end_ := find s_title_close (lower html) start in
    if negb (end_ =? -1) then
      let title := strip (slice html (start + 7) end_) in
      slice_to title 200
    else []
  else [].

(** ** URLs ([urllib.parse])

    Only what the program uses: [urlparse(u).netloc] and
    [urljoin(base, path)] for a path that starts at the root. *)

Definition is_ascii_alpha (c : char) : bool :=
  ((65 <=? c) && (c <=? 90) || (97 <=? c) && (c <=? 122))%N.

(** The characters [urlsplit] accepts in a scheme. *)
Definition scheme_char (c : char) : bool :=
  (is_ascii_alpha c || (48 <=? c) && (c <=? 57)
   || (c =? 43) || (c =? 45) || (c =? 46))%N.

(** [url.lstrip(_WHATWG_C0_CONTROL_OR_SPACE)]: the C0 controls and the
    spaces in front of a URL are dropped. *)
Fixpoint lstrip_c0 (url : str) : str :=
  match url with
  | [] => []
  | c :: url' => if (c <=? 32)%N then lstrip_c0 url' else url
  end.

(** Every TAB, CR and LF is removed ([_UNSAFE_URL_BYTES_TO_REMOVE]). *)
Definition remove_unsafe (url : str) : str :=
  List.filter (λ c, negb ((c =? 9) || (c =? 10) || (c =? 13))%N) url.

(** The scheme and the remainder of a URL, as [urlsplit] separates them
    at the first [':'] when what precedes it is a scheme. *)
Definition split_scheme (url : str) : str * str :=
  let url := remove_unsafe (lstrip_c0 url) in
  let i := find [ch ":"] url 0 in
  if (0 <? i) && forallb is_ascii_alpha (slice_to url 1)
     && forallb scheme_char (slice_to url i)
  then (lower (slice_to url i), slice_from url (i + 1))
  else ([], url).

(** [urlparse(url).scheme] *)
Definition scheme (url : str) : str := fst (split_scheme url).

(** The authority ends at the first of ['/'], ['?'] and ['#']. *)
Fixpoint splitnetloc (url : str) : str * str :=
  match url with
  | [] => ([], [])
  | c :: url' =>
      if ((c =? ch "/") || (c =? ch "?") || (c =? ch "#"))%N then ([], url)
      else let (netloc, rest) := splitnetloc url' in (c :: netloc, rest)
  end.

(** [urlparse(url).netloc], when [urlparse] returns. *)
Definition netloc (url : str) : str :=
  let (_, rest) := split_scheme url in
  if startswith (py "//") rest then fst (splitnetloc (slice_from rest 2)) else [].

(** The authorities [urlsplit] takes as they are: those in ASCII
    without a square bracket.  On a bracket it looks for an IPv6 address
    and on a character outside ASCII it normalises the authority, and
    either check can end in a [ValueError]. *)
Definition plain_netloc (n : str) : bool :=
  forallb (λ c, (c <? 128) && negb (c =? 91) && negb (c =? 93))%N n.

(** [urljoin(base, path)], when it returns, for an [http] or [https]
    base and a reference that is an absolute path without dot segments,
    as every entry of [paths] is: the scheme and the authority of the
    base are kept and the path replaces what follows them.  On a base
    whose authority is not a [plain_netloc] the call can raise instead;
    [probe_domain] makes it outside any [try], so on such a host it makes
    no request and returns nothing. *)
Definition urljoin (base path : str) : str :=
  scheme base ++ py "://" ++ netloc base ++ path.

(** ** Responses and probe results *)

(** What [requests.get] hands back: the attributes [check_url] reads. *)
Record Response := {
  resp_status_code : Z;
  resp_url : str;                 (* the URL after redirects *)
  resp_text : str;
  resp_content : list N;          (* the body, in bytes *)
  resp_headers : list (str * str)
}.

(** The exceptions [requests.get] raises.  [SSLError] is the one class
    [check_url] names; all the others are caught by [except Exception]. *)
Inductive exn :=
  | SSLError
  | ConnectionError      (* DNS failure, connection refused or reset *)
  | Timeout
  | ContentDecodingError (* malformed response *)
  | OtherException (name : str).

Definition is_SSLError (e : exn) : bool :=
  match e with SSLError => true | _ => false end.

(** [headers.get(name, default)] on the case-insensitive header map. *)
Fixpoint headers_get (headers : list (str * str)) (name default : str) : str :=
  match headers with
  | [] => default
  | (k, v) :: rest =>
      if decide (lower k = lower name) then v else headers_get rest name default
  end.

(** The dictionary [check_url] returns. *)
Record ProbeResult := {
  url : str;
  status_code : Z;
  final_url : str;
  title : str;
  content_length : Z;
  server : str;
  content_type : str;
  discovery_time : str;
  domain : str
}.

(** [self.paths] *)
Definition paths : list str := Eval cbv in map py [
  "/"; "/index.html"; "/index.php"; "/home"; "/inicio"; "/portal";
  "/admin"; "/login"; "/acceso"; "/tramites"; "/servicios"; "/ciudadano";
  "/consulta"; "/noticias"; "/prensa"; "/transparencia"; "/estadisticas";
  "/contacto"; "/acerca"; "/sobre"; "/directorio"; "/enlaces";
  "/documentos"; "/normativas"; "/leyes"; "/resoluciones"; "/downloads";
  "/descargas"; "/buscar"; "/search"; "/sitemap.xml"; "/robots.txt";
  "/api"; "/servicios-web"; "/webservices"; "/css/style.css"; "/images";
  "/media"; "/uploads"; "/files"; "/archivos" ]%string.

(** Python's default recursion limit; [check_url] is the only recursive
    method and [check_url_fuel_enough] shows that it stays far below. *)
Definition recursion_limit : nat := 1000.

(** ** The checker and the host prober

    The network, the clock and [time.sleep] are the environment: a state
    [World] with the three operations the methods call.  Each method
    returns, next to its Python result, the list of the URLs it asked
    for, in order, and the new state. *)

Section Prober.

Variable World : Type.
Variable requests_get : str → World → (Response + exn) * World.
Variable now : World → str.
Variable sleep : World → World.

Definition make_result (url : str) (response : Response) (w : World) : ProbeResult :=
  {| url := url;
     status_code := resp_status_code response;
     final_url := resp_url response;
     title := extract_title (resp_text response);
     content_length := len (resp_content response);
     server := headers_get (resp_headers response) (py "Server") (py "Unknown");
     content_type := headers_get (resp_headers response) (py "Content-Type") (py "Unknown");
     discovery_time := now w;
     domain := netloc (resp_url response) |}.

(** [check_url] with a bound on the depth of its recursion; [None] when
    the bound is reached.  The second component lists the URLs requested
    with [requests.get]. *)
Fixpoint check_url_fuel (fuel : nat) (url : str) (w : World)
    : option (option ProbeResult * list str * World) :=
  match fuel with
  | O => None
  | S fuel' =>
      let (outcome, w1) := requests_get url w in
      match outcome with
      | inl response => Some (Some (make_result url response w1), [url], w1)
      | inr e =>
          if is_SSLError e then
            (* Try HTTP if HTTPS fails *)
            if startswith s_https url then
              let http_url := replace s_https s_http url in
              match check_url_fuel fuel' http_url w1 with
              | Some (result, requested, w2) => Some (result, url :: requested, w2)
              | None => None
              end
            else Some (None, [url], w1)
          else Some (None, [url], w1)
      end
  end.

Definition check_url (url : str) (w : World) : option ProbeResult * list str * World :=
  match check_url_fuel recursion_limit url w with
  | Some r => r
  | None => (None, [], w)
  end.

(** The state of [probe_domain]: [found_urls], the candidate URLs handed
    to [check_url] so far, the URLs [check_url] requested for them, and
    the environment. *)
Record ProbeState := {
  found_urls : list ProbeResult;
  attempted : list str;
  requested : list str;
  world : World
}.

(** The inner loop [for path in self.paths] of [probe_domain], for one
    protocol.  The [break] on an HTTPS 200 leaves the loop before the
    pacing sleep. *)
Fixpoint path_loop (protocol base_url : str) (ps : list str) (st : ProbeState) : ProbeState :=
  match ps with
  | [] => st
  | path :: ps' =>
      let url := urljoin base_url path in
      let '(result, gets, w1) := check_url url (world st) in
      let att := attempted st ++ [url] in
      let req := requested st ++ gets in
      match result with
      | Some r =>
          if status_code r <? 500 then
            let found := found_urls st ++ [r] in
            if bool_decide (protocol = py "https") && (status_code r =? 200)
            then {| found_urls := found; attempted := att; requested := req;
                    world := w1 |}
            else path_loop protocol base_url ps'
                   {| found_urls := found; attempted := att; requested := req;
                      world := sleep w1 |}
          else path_loop protocol base_url ps'
                 {| found_urls := found_urls st; attempted := att; requested := req;
                    world := sleep w1 |}
      | None =>
          path_loop protocol base_url ps'
            {| found_urls := found_urls st; attempted := att; requested := req;
               world := sleep w1 |}
      end
  end.

(** The outer loop [for protocol in ['https', 'http']]. *)
Fixpoint protocol_loop (protocols : list str) (domain : str) (st : ProbeState) : ProbeState :=
  match protocols with
  | [] => st
  | protocol :: protocols' =>
      let base_url := protocol ++ py "://" ++ domain in
      let st' := path_loop protocol base_url paths st in
      (* If HTTPS worked, skip HTTP *)
      if negb (bool_decide (found_urls st' = [])) && bool_decide (protocol = py "https")
      then st'
      else protocol_loop protocols' domain st'
  end.

(** [found_urls = []] at the start of [probe_domain]. *)
Definition start (w : World) : ProbeState :=
  {| found_urls := []; attempted := []; requested := []; world := w |}.

(** [probe_domain]: probe all paths for a domain. *)
Definition probe_domain_run (domain : str) (w : World) : ProbeState :=
  protocol_loop [py "https"; py "http"] domain (start w).

Definition probe_domain (domain : str) (w : World) : list ProbeResult :=
  found_urls (probe_domain_run domain w).

End Prober.

Arguments check_url : simpl never.
Arguments urljoin : simpl never.
Arguments protocol_loop : simpl never.

(** ** Loading the domain list

    [csv.DictReader] yields one dictionary per line.  A row is the list
    of its items in column order; the key [None] holds the surplus
    fields of a line longer than the header. *)

Inductive cell :=
  | NoValue               (* [None]: the line is shorter than the header *)
  | Text (s : str)
  | Surplus (shown : str) (* the list of surplus fields; [shown] is [str()] of it *).

(** The truth value of a cell. *)
Definition truthy (value : cell) : bool :=
  match value with
  | NoValue => false
  | Text s => negb (bool_decide (s = []))
  | Surplus _ => true
  end.

(** [str(value)] *)
Definition str_of (value : cell) : str :=
  match value with
  | NoValue => py "None"
  | Text s => s
  | Surplus shown => shown
  end.

Definition row := list (option str * cell).

(** [row[col]], for [col in row]. *)
Fixpoint row_get (col : str) (r : row) : option cell :=
  match r with
  | [] => None
  | (key, value) :: r' =>
      if bool_decide (key = Some col) then Some value else row_get col r'
  end.

Definition domain_columns : list str := Eval cbv in map py [
  "Domain"; "domain"; "URL"; "url"; "hostname"; "Hostname"; "site"; "Site";
  "website"; "Website" ]%string.

(** [for col in domain_columns]: the first recognised column with a value
    that is not blank. *)
Fixpoint named_domain (cols : list str) (r : row) : option str :=
  match cols with
  | [] => None
  | col :: cols' =>
      match row_get col r with
      | Some value =>
          if truthy value && negb (bool_decide (strip (str_of value) = []))
          then Some (strip (str_of value))
          else named_domain cols' r
      | None => named_domain cols' r
      end
  end.

(** [x in domains] *)
Definition member (x : str) (domains : list str) : bool :=
  bool_decide (x ∈ domains).

(** [for key, value in row.items()]: try to find a domain in any column. *)
Fixpoint any_column (items : row) (domains : list str) : list str :=
  match items with
  | [] => domains
  | (_, value) :: items' =>
      if truthy value && negb (bool_decide (strip (str_of value) = [])) then
        let potential_domain := clean_domain (strip (str_of value)) in
        if contains (ch ".") potential_domain && negb (contains (ch " ") potential_domain)
        then if negb (member potential_domain domains)
             then domains ++ [potential_domain]
             else domains
        else any_column items' domains
      else any_column items' domains
  end.

(** The body of [for row in reader]. *)
Definition load_row (domains : list str) (r : row) : list str :=
  match named_domain domain_columns r with
  | Some domain =>
      let cleaned_domain := clean_domain domain in
      if negb (bool_decide (cleaned_domain = [])) && negb (member cleaned_domain domains)
      then domains ++ [cleaned_domain]
      else domains
  | None => any_column r domains
  end.

(** What [load_domains] finds when it opens [self.domains_file]. *)
Inductive csv_file :=
  | Invalid                 (* [validate_csv_file] returned [False] *)
  | NoHeaders               (* [reader.fieldnames] is empty *)
  | Rows (rows : list row) (raised : bool)
      (* the rows read; [raised] when reading the file or saving the
         cleaned list raised an exception *).

(** [load_domains]: load domains from the CSV file. *)
Definition load_domains (f : csv_file) : list str :=
  match f with
  | Invalid => []
  | NoHeaders => []
  | Rows rows raised => if raised then [] else fold_left load_row rows []
  end.

(** ** The dispatcher

    [executor.submit] creates one future per call; a future is named by
    the position of its submission.  What a future ends with is what the
    worker's call [self.probe_domain(domain)] did: the list it returned
    or the exception it raised. *)

Inductive task_end :=
  | Returned (results : list ProbeResult)
  | Raised (e : str).

(** The dictionary comprehension [future_to_domain]: one [submit] per
    element of [domains], in order. *)
Definition submit_all (domains : list str) : gmap nat str :=
  map_seq 0 domains.

(** What [probe_all_domains] leaves behind: [self.discovered_urls] and
    the error lines it printed (domain and exception). *)
Record Dispatch := {
  discovered_urls : list ProbeResult;
  errors : list (str * str)
}.

(** The body of [for future in as_completed(future_to_domain)]. *)
Definition collect (future_to_domain : gmap nat str) (result : nat → task_end)
    (st : Dispatch) (future : nat) : Dispatch :=
  let domain := default [] (future_to_domain !! future) in
  match result future with
  | Returned results =>
      if negb (bool_decide (results = []))
      then {| discovered_urls := discovered_urls st ++ results; errors := errors st |}
      else st
  | Raised e =>
      {| discovered_urls := discovered_urls st; errors := errors st ++ [(domain, e)] |}
  end.

(** [probe_all_domains]: [completed] is the order in which
    [as_completed] yields the futures. *)
Definition probe_all_domains (domains : list str) (result : nat → task_end)
    (completed : list nat) (st : Dispatch) : Dispatch :=
  let future_to_domain := submit_all domains in
  fold_left (collect future_to_domain result) completed st.

(** What one future adds to [self.discovered_urls] ... *)
Definition returned (e : task_end) : list ProbeResult :=
  match e with Returned results => results | Raised _ => [] end.

(** ... and to the printed errors. *)
Definition failure (d : str) (e : task_end) : list (str * str) :=
  match e with Returned _ => [] | Raised err => [(d, err)] end.

(** ** The summary *)

(** [if k not in d: d[k] = 0] followed by [d[k] += 1]. *)
Definition count_up `{Countable K} (k : K) (d : gmap K nat) : gmap K nat :=
  let d := if bool_decide (d !! k = None) then <[k := 0%nat]> d else d in
  alter (λ n, (n + 1)%nat) k d.

(** The body of [for url_data in self.discovered_urls]. *)
Definition summarize_one (tables : gmap str nat * gmap Z nat) (url_data : ProbeResult)
    : gmap str nat * gmap Z nat :=
  let domain := domain url_data in
  let status := status_code url_data in
  (count_up domain (fst tables), count_up status (snd tables)).

(** [generate_summary_report]: the two tables it writes, [domains_dict]
    and [status_summary]; [None] when it returns before building them. *)
Definition generate_summary_report (discovered : list ProbeResult)
    : option (gmap str nat * gmap Z nat) :=
  if bool_decide (discovered = []) then None
  else Some (fold_left summarize_one discovered (∅, ∅)).

(** The number of elements of [l] filed under [k], and the entry a
    counting dictionary has for that number: no entry for zero. *)
Definition tally {A} `{EqDecision K} (key : A → K) (k : K) (l : list A) : nat :=
  length (filter (λ x, key x = k) l).

Definition entry (n : nat) : option nat :=
  match n with O => None | S _ => Some n end.

(** What [clean_domain] establishes of every name it returns: it is in
    lower case and holds none of the characters that end the host part
    of a URL, so it carries no scheme, path, query, fragment or port. *)
Definition separators : list char := [ch "/"; ch "?"; ch "#"; ch ":"].

Definition cleaned (h : str) : Prop :=
  lower h = h
  ∧ Forall (λ c, contains c h = false) separators
  ∧ startswith s_http h = false
  ∧ startswith s_https h = false.

(** What the loop of [load_domains] keeps true of [domains]. *)
Definition loaded (domains : list str) : Prop :=
  NoDup domains ∧ Forall (λ h, h ≠ [] ∧ cleaned h) domains.

(** The position of the first occurrence of [sub] in [s], if any: what
    [find] computes, without the sentinel [-1]. *)
Fixpoint occurrence (sub s : str) : option nat :=
  if startswith sub s then Some O
  else match s with
       | [] => None
       | _ :: s' => S <$> occurrence sub s'
       end.

(** A string without U+0130, the one code point [lower] lengthens. *)
Definition plain (s : str) : Prop := Forall (λ c, c ≠ 304%N) s.

(** The code points of a run, and all those [lower_runs] lists. *)
Definition run_keys (r : N * N * N * N) : list N :=
  let '(lo, hi, step, _) := r in
  map (λ k, lo + N.of_nat k * step)%N (seq 0 (S (N.to_nat ((hi - lo) / step)))).

Definition lower_keys : list N := flat_map run_keys lower_runs.

(** A code point that [lower] leaves as it is, wherever it stands. *)
Definition settled (c : char) : bool :=
  (negb (c =? 931) && negb (c =? 304) && (lower_one c =? c))%N.

(** A code point that [lower] leaves as it is and never puts in the
    place of another one. *)
Definition unmoved (c : char) : bool :=
  settled c
  && forallb (λ k, negb (lower_one k =? c)%N) lower_keys
  && negb (existsb (N.eqb c) [962; 963; 105; 775]%N).

(** Whether the first code point of [s] that is not case-ignorable is
    cased: what [final_sigma] looks for on either side. *)
Definition first_cased (s : str) : bool :=
  match skip_case_ignorable s with
  | [] => false
  | c :: _ => is_cased c
  end.

(** The requests [check_url] makes for a URL: the URL itself, followed
    or not by the one retry. *)
Definition request_group (u : str) (gets : list str) : Prop :=
  gets = [u] ∨ gets = [u; replace s_https s_http u].

(** ** Choosing the input file *)

(** [l[i]] on a list: a negative index counts from the end; [None]
    stands for [IndexError]. *)
Definition getitem {A} (l : list A) (i : Z) : option A :=
  if i <? 0 then
    if 0 <=? i + Z.of_nat (length l) then l !! Z.to_nat (i + Z.of_nat (length l))
    else None
  else l !! Z.to_nat i.

Section Select.

(** [int(s)]: the number a string denotes, [None] for [ValueError]. *)
Variable int : str → option Z.

(** [select_csv_file]: [csv_files] is what [find_csv_files] returned and
    [answer] what the user typed. *)
Definition select_csv_file (csv_files : list str) (answer : str) : option str :=
  if bool_decide (csv_files = []) then None
  else
    let choice := strip answer in
    let choice := if bool_decide (choice = []) then py "1" else choice in
    match int choice with
    | Some n =>
        let selected_index := n - 1 in
        if (0 <=? selected_index) && (selected_index <? Z.of_nat (length csv_files))
        then getitem csv_files selected_index
        else None
    | None => None
    end.

End Select.

(** ** Validating the input file *)

(** [s.endswith(suffix)] *)
Definition endswith (suffix s : str) : bool :=
  startswith (rev suffix) (rev s).

(** What [validate_csv_file] finds at [filepath]. *)
Inductive file_state :=
  | Missing                 (* [os.path.exists] is [False] *)
  | Unreadable              (* [open] or [read] raises *)
  | Content (text : str).   (* the characters the bytes of the file decode to *)

(** A file opened in text mode is read with every line end, CR LF or a
    lone CR, given as LF. *)
Fixpoint universal_newlines (text : str) : str :=
  match text with
  | [] => []
  | c :: rest =>
      if (c =? 13)%N then
        10%N :: match rest with
                | [] => []
                | c' :: rest' =>
                    if (c' =? 10)%N then universal_newlines rest'
                    else universal_newlines rest
                end
      else c :: universal_newlines rest
  end.

(** [validate_csv_file]: validate that the input file is a CSV.  The
    sample is [f.read(1024)], the first 1024 characters read. *)
Definition validate_csv_file (filepath : str) (file : file_state) : bool :=
  if negb (endswith (py ".csv") (lower filepath)) then false
  else match file with
       | Missing => false
       | Unreadable => false
       | Content text =>
           let sample := slice_to (universal_newlines text) 1024 in
           if len (strip sample) =? 0 then false else true
       end.

(** ** The quick summary of [generate_summary_report]

    Python walks a dictionary in insertion order; the sum and the
    maximum taken here do not depend on the order. *)

(** [[code for code in status_summary.keys() if 200 <= code < 400]] *)
Definition successful_codes (status_summary : gmap Z nat) : list Z :=
  filter (λ code, 200 ≤ code < 400) (map_to_list status_summary).*1.

(** [sum(status_summary[code] for code in successful_codes)], computed
    and printed when [successful_codes] is not empty. *)
Definition successful_count (status_summary : gmap Z nat) : option nat :=
  let codes := successful_codes status_summary in
  if bool_decide (codes = []) then None
  else Some (sum_list_with (λ code, default 0%nat (status_summary !! code)) codes).

(** The sum of the counts a table holds under the keys with [P]. *)
Definition counted `{Countable K} (P : K → Prop) `{∀ k, Decision (P k)}
    (d : gmap K nat) : nat :=
  sum_list_with (λ kv, if decide (P kv.1) then kv.2 else 0%nat) (map_to_list d).

(** [max(domains_dict.values())] *)
Definition most_urls (domains_dict : gmap str nat) : nat :=
  max_list (map_to_list domains_dict).*2.

(** ** The infrastructure mapper ([cuba_domain.py]) *)

(** [sep.join(parts)] *)
Fixpoint join (sep : str) (parts : list str) : str :=
  match parts with
  | [] => []
  | p :: rest =>
      match rest with
      | [] => p
      | _ :: _ => p ++ sep ++ join sep rest
      end
  end.

(** [parts[-2:]] *)
Definition last_two {A} (parts : list A) : list A :=
  drop (Z.to_nat (slice_index (Z.of_nat (length parts)) (-2))) parts.

(** The base domain [check_all_subdomains] derives from a domain: its
    last two labels, when it has two. *)
Definition base_domain (domain : str) : option str :=
  let parts := split (ch ".") domain in
  if 2 <=? Z.of_nat (length parts)
  then Some (join (py ".") (last_two parts))
  else None.

(** The loop over [name.split('\n')] in [search_certificates]. *)
Definition add_names (name : str) (all_domains : gset str) : gset str :=
  foldl (λ all domain,
           let domain := lower (strip domain) in
           if negb (bool_decide (domain = [])) && negb (startswith (py "*") domain)
           then {[domain]} ∪ all
           else all)
    all_domains (split 10%N name).

(** What the request for one suffix gives: an exception of
    [requests.get], or a status and the decoded JSON, [None] when
    [response.json()] raises.  An entry is given by its [name_value],
    the empty string when it has none; [None] is an entry on which
    [entry.get] or [name.split] raises. *)
Inductive crt_answer :=
  | GetRaised
  | Answered (status : Z) (data : option (list (option str))).

(** The loop [for entry in data], with whether it came to its end: the
    names added before an exception stay in the set. *)
Fixpoint add_entries (data : list (option str)) (all_domains : gset str)
    : gset str * bool :=
  match data with
  | [] => (all_domains, true)
  | None :: _ => (all_domains, false)
  | Some name :: data' => add_entries data' (add_names name all_domains)
  end.

(** One subdomain found by [enumerate_subdomains]. *)
Record Subdomain := {
  sub_domain : str;
  sub_ip : str;
  sub_method : str
}.

(** The words [check_all_subdomains] tries in front of a base domain. *)
Definition wordlist : list str :=
  [py "www"; py "mail"; py "webmail"; py "smtp"; py "pop"; py "imap";
   py "ftp"; py "sftp"; py "admin"; py "administrator";
   py "portal"; py "intranet"; py "extranet"; py "remote";
   py "vpn"; py "access"; py "secure"; py "ssl";
   py "api"; py "app"; py "web"; py "servidor";
   py "servicios"; py "tramites"; py "ciudadano"; py "consulta";
   py "transparencia"; py "prensa"; py "noticias"; py "estadisticas"].

(** [s < t] on strings: by code points, a proper prefix first. *)
Fixpoint str_lt (s t : str) : bool :=
  match s, t with
  | _, [] => false
  | [], _ :: _ => true
  | c :: s', d :: t' => (c <? d)%N || ((c =? d)%N && str_lt s' t')
  end.

Definition str_le (s t : str) : Prop := str_lt t s = false.

#[global] Instance str_le_dec (s t : str) : Decision (str_le s t).
Proof. unfold str_le. apply _. Defined.

(** [sorted(X)] for a set of strings. *)
Definition sorted (X : gset str) : list str :=
  merge_sort str_le (elements X).

(** The set [base_domains] that [check_all_subdomains] builds. *)
Definition base_domains (all_domains : gset str) : gset str :=
  list_to_set (omap base_domain (elements all_domains)).

Section Mapper.

Variable World : Type.
Variable crt_get : str → World → crt_answer * World.
Variable resolve : str → World → (list str + exn) * World.
(** [time.sleep], the time in milliseconds. *)
Variable sleep : Z → World → World.

(** The loop [for tld in tlds] of [search_certificates].  An exception
    leaves the [try] block before the sleep. *)
Fixpoint search_tlds (tlds : list str) (all_domains : gset str) (w : World)
    : gset str * World :=
  match tlds with
  | [] => (all_domains, w)
  | tld :: tlds' =>
      let url := py "https://crt.sh/?q=%." ++ tld ++ py "&output=json" in
      let (answer, w1) := crt_get url w in
      match answer with
      | GetRaised => search_tlds tlds' all_domains w1
      | Answered status data =>
          if status =? 200 then
            match data with
            | None => search_tlds tlds' all_domains w1
            | Some entries =>
                let (all_domains', finished) := add_entries entries all_domains in
                search_tlds tlds' all_domains'
                  (if finished then sleep 2000 w1 else w1)
            end
          else search_tlds tlds' all_domains (sleep 2000 w1)
      end
  end.

(** [search_certificates]: certificate transparency. *)
Definition search_certificates (all_domains : gset str) (w : World)
    : gset str * World :=
  search_tlds [py "gov.cu"; py "gob.cu"] all_domains w.

(** [enumerate_subdomains]: the bare [except] drops every failed lookup,
    and the sleep with it. *)
Fixpoint enumerate_words (base : str) (wordlist : list str)
    (found : list Subdomain) (w : World) : list Subdomain * World :=
  match wordlist with
  | [] => (found, w)
  | word :: wordlist' =>
      let subdomain := word ++ py "." ++ base in
      let (answers, w1) := resolve subdomain w in
      match answers with
      | inl ips =>
          enumerate_words base wordlist'
            (found ++ map (λ ip, {| sub_domain := subdomain; sub_ip := ip;
                                    sub_method := py "dns_enum" |}) ips)
            (sleep 300 w1)
      | inr _ => enumerate_words base wordlist' found w1
      end
  end.

Definition enumerate_subdomains (base : str) (wordlist : list str) (w : World)
    : list Subdomain * World :=
  enumerate_words base wordlist [] w.

(** The loop [for base in sorted(base_domains)] of
    [check_all_subdomains]. *)
Fixpoint check_bases (bases : list str) (subdomain_results : list Subdomain)
    (w : World) : list Subdomain * World :=
  match bases with
  | [] => (subdomain_results, w)
  | base :: bases' =>
      let (results, w1) := enumerate_subdomains base wordlist w in
      check_bases bases' (subdomain_results ++ results) (sleep 1000 w1)
  end.

(** [check_all_subdomains] *)
Definition check_all_subdomains (all_domains : gset str)
    (subdomain_results : list Subdomain) (w : World) : list Subdomain * World :=
  check_bases (sorted (base_domains all_domains)) subdomain_results w.

(** The two methods [run] calls one after the other, on the empty
    tables of [__init__]. *)
Definition mapper_run (w : World) : gset str * list Subdomain * World :=
  let (all_domains, w1) := search_certificates ∅ w in
  let (subdomain_results, w2) := check_all_subdomains all_domains [] w1 in
  (all_domains, subdomain_results, w2).

End Mapper.

Arguments check_bases : simpl never.

(** ** Example environments

    Networks without state, used to run the methods on concrete inputs. *)

Definition page (status : Z) (u body : str) : Response :=
  {| resp_status_code := status; resp_url := u; resp_text := body;
     resp_content := body; resp_headers := [] |}.

(** Every request times out. *)
Definition all_timeout (u : str) (w : unit) : (Response + exn) * unit :=
  (inr Timeout, w).

(** TLS fails on every [https://] URL; everything else answers 200. *)
Definition tls_broken (u : str) (w : unit) : (Response + exn) * unit :=
  if startswith s_https u then (inr SSLError, w)
  else (inl (page 200 u (py "<title>ok</title>")), w).

(** One page exists on the host; every other URL answers 404. *)
Definition one_page (u : str) (w : unit) : (Response + exn) * unit :=
  if bool_decide (u = py "https://a.cu/index.html")
  then (inl (page 200 u (py "<title>ok</title>")), w)
  else (inl (page 404 u []), w).

(** Nothing listens on the HTTPS port; every [http://] URL answers 200. *)
Definition http_only (u : str) (w : unit) : (Response + exn) * unit :=
  if startswith s_https u then (inr ConnectionError, w)
  else (inl (page 200 u (py "<title>ok</title>")), w).

(** TLS fails on every request, whatever the URL. *)
Definition all_tls_error (u : str) (w : unit) : (Response + exn) * unit :=
  (inr SSLError, w).

(** Three results on two hosts. *)
Definition three_results : list ProbeResult :=
  [ make_result unit (λ _, py "2024-01-01 00:00:00") (py "https://a.cu/")
      (page 200 (py "https://a.cu/") []) tt;
    make_result unit (λ _, py "2024-01-01 00:00:00") (py "https://a.cu/admin")
      (page 404 (py "https://a.cu/admin") []) tt;
    make_result unit (λ _, py "2024-01-01 00:00:00") (py "https://b.cu/")
      (page 301 (py "https://b.cu/") []) tt ].

Definition clock (w : unit) : str := py "2024-01-01 00:00:00".

Definition no_sleep (w : unit) : unit := w.

(** * Properties *)

(** ** Evaluation on small inputs *)

Example clean_domain_url :
  clean_domain (py "  https://www.Example.cu:8080/a/b?x=1#f ") = py "example.cu".
Proof. reflexivity. Qed.

Example extract_title_ascii :
  extract_title (py "<html><TITLE> Portal </Title></html>") = py "Portal".
Proof. reflexivity. Qed.

Example replace_all :
  replace s_https s_http (py "https://a.cu/https://b.cu") = py "http://a.cu/http://b.cu".
Proof. reflexivity. Qed.


(** ** String facts used below *)

Lemma startswith_app (prefix s : str) : startswith prefix (prefix ++ s) = true.
Proof.
  induction prefix as [|p prefix IH]; simpl; [done|].
  by rewrite N.eqb_refl, IH.
Qed.

Lemma startswith_cons (p c : char) (prefix s : str) :
  startswith (p :: prefix) (c :: s) = (p =? c)%N && startswith prefix s.
Proof. reflexivity. Qed.

Lemma startswith_inv (prefix s : str) :
  startswith prefix s = true → ∃ rest, s = prefix ++ rest.
Proof.
  revert s. induction prefix as [|p prefix IH]; intros s H; simpl in *.
  - by exists s.
  - destruct s as [|c s]; [done|].
    apply andb_true_iff in H as [Hp Hs]. apply N.eqb_eq in Hp as ->.
    destruct (IH _ Hs) as [rest ->]. by exists rest.
Qed.

(** The URL [check_url] retries with never starts with [https://] again:
    its fifth character is the [':'] of [http://]. *)
Lemma replace_https_not_https (u : str) :
  startswith s_https u = true →
  startswith s_https (replace s_https s_http u) = false.
Proof.
  intros H. apply startswith_inv in H as [rest ->]. reflexivity.
Qed.

(** When [https://] occurs only at the head of the URL, the retry URL is
    the same URL with the scheme rewritten. *)
Lemma replace_https_head (rest : str) :
  replace s_https s_http rest = rest →
  replace s_https s_http (s_https ++ rest) = s_http ++ rest.
Proof.
  intros H. unfold replace, s_https, s_http in *. cbn. by rewrite H.
Qed.

(** Case analysis on the comparisons of code points in the goal. *)
Ltac case_chars :=
  repeat (match goal with
          | |- context [(?a <=? ?b)%N] => destruct (N.leb_spec a b)
          | |- context [(?a =? ?b)%N] => destruct (N.eqb_spec a b)
          end; cbn [andb orb negb existsb flat_map app]; try lia);
  try done.

(** *** Lower case *)

Lemma lower_lookup_cases (runs : list (N * N * N * N)) (c : char) :
  lower_lookup runs c = c ∨ c ∈ flat_map run_keys runs.
Proof.
  induction runs as [|[[[lo hi] step] lo'] runs IH]; [by left|].
  cbn [lower_lookup flat_map].
  destruct ((lo <=? c) && (c <=? hi) && ((c - lo) mod step =? 0))%N eqn:Hin.
  - right. apply elem_of_app. left.
    apply andb_true_iff in Hin as [[Hlo Hhi]%andb_true_iff Hmod].
    apply N.leb_le in Hlo, Hhi. apply N.eqb_eq in Hmod.
    unfold run_keys. apply list_elem_of_In, in_map_iff.
    exists (N.to_nat ((c - lo) / step)). rewrite N2Nat.id. split.
    + pose proof (N.div_mod' (c - lo) step) as Hdiv.
      rewrite Hmod, N.add_0_r in Hdiv.
      remember ((c - lo) / step)%N as q eqn:Hq. clear Hq. lia.
    + apply in_seq. split; [apply Nat.le_0_l|]. cbn [Nat.add].
      assert ((c - lo) / step ≤ (hi - lo) / step)%N as Hle
        by (apply N.Div0.div_le_mono; lia).
      clear Hmod.
      remember ((c - lo) / step)%N as q eqn:Hq. clear Hq.
      remember ((hi - lo) / step)%N as q' eqn:Hq'. clear Hq'. lia.
  - destruct IH as [IH|IH]; [by left|]. right. apply elem_of_app. by right.
Qed.

Lemma lower_one_cases (c : char) : lower_one c = c ∨ c ∈ lower_keys.
Proof. apply lower_lookup_cases. Qed.

Lemma lower_keys_all (P : char → bool) (c : char) :
  forallb P lower_keys = true → c ∈ lower_keys → P c = true.
Proof.
  intros Hall Hc. rewrite forallb_forall in Hall. by apply Hall, list_elem_of_In.
Qed.

(** The lower-case form of a code point is left as it is by [lower]. *)
Lemma lower_one_settled (c : char) : c ≠ 304%N → settled (lower_one c) = true.
Proof.
  intros Hdot. destruct (lower_one_cases c) as [Heq|Hkey].
  - unfold settled. rewrite !Heq, N.eqb_refl.
    destruct (N.eqb_spec c 931) as [->|_]; [by vm_compute in Heq|].
    by destruct (N.eqb_spec c 304).
  - apply (lower_keys_all (λ k, settled (lower_one k))); [by vm_compute | done].
Qed.

Lemma lower_at_settled (before : str) (c : char) (after : str) :
  forallb settled (lower_at before c after) = true.
Proof.
  unfold lower_at. destruct (N.eqb_spec c 931) as [_|_].
  { destruct (final_sigma before after); by vm_compute. }
  unfold lower_char. destruct (N.eqb_spec c 304) as [_|Hdot]; [by vm_compute|].
  cbn [forallb]. by rewrite lower_one_settled.
Qed.

Lemma lower_in_cons (before : str) (c : char) (s after : str) :
  lower_in before (c :: s) after
  = lower_at before c (s ++ after) ++ lower_in (c :: before) s after.
Proof. reflexivity. Qed.

Lemma lower_in_settled (before s after : str) :
  forallb settled (lower_in before s after) = true.
Proof.
  revert before. induction s as [|c s IH]; intros before; [done|].
  by rewrite lower_in_cons, forallb_app, lower_at_settled, IH.
Qed.

Lemma lower_in_fixed (before s after : str) :
  forallb settled s = true → lower_in before s after = s.
Proof.
  revert before. induction s as [|c s IH]; intros before; [done|].
  cbn [forallb]. intros [Hc Hs]%andb_true_iff.
  rewrite lower_in_cons, IH by done.
  unfold settled in Hc.
  apply andb_true_iff in Hc as [[Hsigma Hdot]%andb_true_iff Hfix%N.eqb_eq].
  apply negb_true_iff in Hsigma, Hdot.
  unfold lower_at, lower_char. by rewrite Hsigma, Hdot, Hfix.
Qed.

(** A string is its own lower-case form exactly when every code point of
    it is one that [lower] leaves as it is. *)
Lemma lower_fixed_iff (s : str) : lower s = s ↔ forallb settled s = true.
Proof.
  split; [|apply lower_in_fixed].
  intros <-. apply lower_in_settled.
Qed.

(** [lower] is idempotent: its result is in lower case. *)
Lemma lower_idem (s : str) : lower (lower s) = lower s.
Proof. apply lower_in_fixed, lower_in_settled. Qed.

Lemma contains_app (c : char) (s t : str) :
  contains c (s ++ t) = contains c s || contains c t.
Proof. apply existsb_app. Qed.

Lemma unmoved_preimage (c x : char) : unmoved c = true → lower_one x = c → x = c.
Proof.
  unfold unmoved. intros [[Hc Hkeys]%andb_true_iff _]%andb_true_iff Hx.
  destruct (lower_one_cases x) as [Heq|Hkey]; [congruence|].
  apply (lower_keys_all _ x Hkeys) in Hkey.
  apply negb_true_iff, N.eqb_neq in Hkey. done.
Qed.

Lemma contains_lower_at (c : char) (before : str) (x : char) (after : str) :
  unmoved c = true → contains c (lower_at before x after) = (c =? x)%N.
Proof.
  intros Hc. pose proof Hc as Hc'. unfold unmoved in Hc'.
  apply andb_true_iff in Hc' as [[Hset _]%andb_true_iff Hout].
  unfold settled in Hset.
  apply andb_true_iff in Hset as [[Hsigma Hdot]%andb_true_iff Hfix%N.eqb_eq].
  apply negb_true_iff in Hsigma, Hdot, Hout. cbn [existsb] in Hout.
  apply orb_false_iff in Hout as [H962 [H963 [H105 [H775 _]%orb_false_iff
    ]%orb_false_iff]%orb_false_iff].
  unfold lower_at, lower_char, contains.
  destruct (N.eqb_spec x 931) as [->|_].
  { destruct (final_sigma before after); cbn [existsb];
      rewrite ?H962, ?H963, Hsigma; done. }
  destruct (N.eqb_spec x 304) as [->|_].
  { cbn [existsb]. by rewrite H105, H775, Hdot. }
  cbn [existsb]. rewrite orb_false_r.
  destruct (N.eqb_spec c x) as [<-|Hx]; [rewrite Hfix; apply N.eqb_refl|].
  apply N.eqb_neq. intros Heq. symmetry in Heq.
  by apply (unmoved_preimage _ _ Hc) in Heq.
Qed.

Lemma contains_lower_in (c : char) (before s after : str) :
  unmoved c = true → contains c (lower_in before s after) = contains c s.
Proof.
  intros Hc. revert before. induction s as [|x s IH]; intros before; [done|].
  rewrite lower_in_cons, contains_app, IH, contains_lower_at by done.
  reflexivity.
Qed.

(** Lower-casing neither adds nor removes a separator. *)
Lemma contains_lower (c : char) (s : str) :
  c ∈ separators → contains c (lower s) = contains c s.
Proof.
  intros Hc. apply contains_lower_in.
  unfold separators, ch in Hc. cbn [N_of_ascii N_of_digits N.add N.mul] in Hc.
  repeat (apply elem_of_cons in Hc as [->|Hc]);
    try (by apply elem_of_nil in Hc); by vm_compute.
Qed.

(** *** The text around a capital sigma *)

Lemma first_cased_cons (c : char) (s : str) :
  first_cased (c :: s) = if is_case_ignorable c then first_cased s else is_cased c.
Proof.
  unfold first_cased. cbn [skip_case_ignorable].
  by destruct (is_case_ignorable c).
Qed.

Lemma final_sigma_first_cased (before after : str) :
  final_sigma before after = first_cased before && negb (first_cased after).
Proof.
  unfold final_sigma, first_cased.
  destruct (skip_case_ignorable before) as [|c ?]; [done|].
  by destruct (skip_case_ignorable after).
Qed.

Lemma first_cased_app (s after after' : str) :
  first_cased after = first_cased after' →
  first_cased (s ++ after) = first_cased (s ++ after').
Proof.
  intros H. induction s as [|c s IH]; [done|].
  cbn [app]. by rewrite !first_cased_cons, IH.
Qed.

(** The lower-case form of a part of a text depends on the text around it
    only through the cased code point next to it on either side. *)
Lemma lower_in_context (before before' s after after' : str) :
  first_cased before = first_cased before' →
  first_cased after = first_cased after' →
  lower_in before s after = lower_in before' s after'.
Proof.
  intros Hb Ha. revert before before' Hb.
  induction s as [|c s IH]; intros before before' Hb; [done|].
  rewrite !lower_in_cons. f_equal.
  - unfold lower_at. rewrite !final_sigma_first_cased, Hb.
    by rewrite (first_cased_app s after after').
  - apply IH. by rewrite !first_cased_cons, Hb.
Qed.

Lemma lower_in_app (before x y after : str) :
  lower_in before (x ++ y) after
  = lower_in before x (y ++ after) ++ lower_in (rev x ++ before) y after.
Proof.
  revert before. induction x as [|c x IH]; intros before; [done|].
  cbn [app]. rewrite !lower_in_cons, IH, <-!app_assoc. cbn [rev app].
  by rewrite <-!app_assoc.
Qed.

(** A text without capital sigma is lower-cased code point by code
    point. *)
Lemma lower_in_no_sigma (before before' s after after' : str) :
  contains 931%N s = false → lower_in before s after = lower_in before' s after'.
Proof.
  revert before before'. induction s as [|c s IH]; intros before before'; [done|].
  change (contains 931%N (c :: s)) with ((931 =? c)%N || contains 931%N s).
  intros [Hc Hs]%orb_false_iff. rewrite !lower_in_cons, (IH _ (c :: before')) by done.
  unfold lower_at. by rewrite N.eqb_sym, Hc.
Qed.

(** When the lower-case form of a text holds neither a small sigma nor a
    combining dot above, the text holds neither a capital sigma nor
    U+0130, and its code points were lowered one by one. *)
Lemma lower_in_image (before s after : str) :
  contains 962%N (lower_in before s after) = false →
  contains 963%N (lower_in before s after) = false →
  contains 775%N (lower_in before s after) = false →
  contains 931%N s = false ∧ plain s ∧ lower_in before s after = map lower_one s.
Proof.
  revert before. induction s as [|c s IH]; intros before.
  { intros _ _ _. split; [done|]. split; [constructor | done]. }
  rewrite lower_in_cons, !contains_app.
  intros [H1 H1']%orb_false_iff [H2 H2']%orb_false_iff [H3 H3']%orb_false_iff.
  destruct (IH _ H1' H2' H3') as (Hsigma & Hplain & ->).
  unfold lower_at, lower_char in *.
  destruct (N.eqb_spec c 931) as [->|Hc].
  { by destruct (final_sigma before (s ++ after)). }
  destruct (N.eqb_spec c 304) as [->|Hdot]; [done|].
  split; [|split].
  - change (contains 931%N (c :: s)) with ((931 =? c)%N || contains 931%N s).
    rewrite Hsigma, orb_false_r. apply N.eqb_neq. congruence.
  - by constructor.
  - done.
Qed.

Lemma lower_at_plain (before : str) (c : char) (after : str) :
  c ≠ 304%N → length (lower_at before c after) = 1%nat.
Proof.
  intros Hc. unfold lower_at, lower_char.
  destruct (c =? 931)%N; [done|]. by destruct (N.eqb_spec c 304).
Qed.

Lemma first_split_cons (sep c : char) (s : str) :
  first (split sep (c :: s))
  = if (c =? sep)%N then [] else c :: first (split sep s).
Proof.
  simpl. destruct (c =? sep)%N; [done|]. by destruct (split sep s).
Qed.

(** The first field of a split holds no separator ... *)
Lemma first_split_free (sep : char) (s : str) :
  contains sep (first (split sep s)) = false.
Proof.
  induction s as [|c s IH]; [done|].
  rewrite first_split_cons. destruct (c =? sep)%N eqn:Hc; [done|].
  simpl. rewrite IH, orb_false_r. by rewrite N.eqb_sym.
Qed.

(** ... and no character that the string did not hold. *)
Lemma first_split_keeps_free (sep c : char) (s : str) :
  contains c s = false → contains c (first (split sep s)) = false.
Proof.
  induction s as [|x s IH]; [done|].
  rewrite first_split_cons. simpl. intros [Hx Hs]%orb_false_iff.
  destruct (x =? sep)%N; [done|]. simpl. by rewrite Hx, IH.
Qed.

Lemma startswith_contains (prefix s : str) (c : char) :
  contains c prefix = true → startswith prefix s = true → contains c s = true.
Proof.
  intros Hc [rest ->]%startswith_inv. by rewrite contains_app, Hc.
Qed.

(** ** The single request checker *)

Section CheckerFacts.

Variable World : Type.
Variable requests_get : str → World → (Response + exn) * World.
Variable now : World → str.

Local Abbreviation check_fuel := (check_url_fuel World requests_get now).
Local Abbreviation check := (check_url World requests_get now).
Local Abbreviation result_of := (make_result World now).

Lemma recursion_limit_ge : (2 ≤ recursion_limit)%nat.
Proof. unfold recursion_limit. lia. Qed.

Lemma check_url_fuel_S (n : nat) (u : str) (w : World) :
  check_fuel (S n) u w =
    let (outcome, w1) := requests_get u w in
    match outcome with
    | inl response => Some (Some (result_of u response w1), [u], w1)
    | inr e =>
        if is_SSLError e then
          if startswith s_https u then
            match check_fuel n (replace s_https s_http u) w1 with
            | Some (result, requested, w2) => Some (result, u :: requested, w2)
            | None => None
            end
          else Some (None, [u], w1)
        else Some (None, [u], w1)
    end.
Proof. reflexivity. Qed.

(** Two levels are enough: a deeper bound gives the same result. *)
Lemma check_url_fuel_enough (n : nat) (u : str) (w : World) :
  (2 ≤ n)%nat → check_fuel n u w = check_fuel 2 u w.
Proof.
  intros Hn. destruct n as [|[|n]]; [lia | lia |].
  rewrite !check_url_fuel_S.
  destruct (requests_get u w) as [[response|e] w1]; cbv beta iota; [done|].
  destruct (is_SSLError e); [|done].
  destruct (startswith s_https u) eqn:Hs; [|done].
  rewrite !check_url_fuel_S, (replace_https_not_https _ Hs).
  destruct (requests_get (replace s_https s_http u) w1) as [[response|e'] w2];
    cbv beta iota; [done|].
  by destruct (is_SSLError e').
Qed.

(** [check_url] always returns. *)
Lemma check_url_fuel_returns (n : nat) (u : str) (w : World) :
  (2 ≤ n)%nat → is_Some (check_fuel n u w).
Proof.
  intros Hn. rewrite check_url_fuel_enough by done.
  rewrite !check_url_fuel_S.
  destruct (requests_get u w) as [[response|e] w1]; cbv beta iota; [done|].
  destruct (is_SSLError e); [|done].
  destruct (startswith s_https u) eqn:Hs; [|done].
  rewrite !check_url_fuel_S, (replace_https_not_https _ Hs).
  destruct (requests_get (replace s_https s_http u) w1) as [[response|e'] w2];
    cbv beta iota; [done|].
  by destruct (is_SSLError e').
Qed.

Lemma check_url_two (u : str) (w : World) :
  check u w =
    match check_fuel 2 u w with Some r => r | None => (None, [], w) end.
Proof.
  unfold check_url.
  by rewrite (check_url_fuel_enough recursion_limit) by apply recursion_limit_ge.
Qed.

(** The recursive equation of [check_url], as the method is written. *)
Lemma check_url_eq (u : str) (w : World) :
  check u w =
    let (outcome, w1) := requests_get u w in
    match outcome with
    | inl response => (Some (result_of u response w1), [u], w1)
    | inr e =>
        if is_SSLError e then
          if startswith s_https u then
            let '(result, requested, w2) := check (replace s_https s_http u) w1 in
            (result, u :: requested, w2)
          else (None, [u], w1)
        else (None, [u], w1)
    end.
Proof.
  rewrite check_url_two, check_url_fuel_S.
  destruct (requests_get u w) as [[response|e] w1]; cbv beta iota; [done|].
  destruct (is_SSLError e); [|done].
  destruct (startswith s_https u) eqn:Hs; [|done].
  rewrite check_url_two, !check_url_fuel_S, (replace_https_not_https _ Hs).
  destruct (requests_get (replace s_https s_http u) w1) as [[response|e'] w2];
    cbv beta iota; [done|].
  by destruct (is_SSLError e').
Qed.

(** A URL that does not start with [https://] is requested once. *)
Lemma check_url_no_retry (u : str) (w : World) :
  startswith s_https u = false →
  check u w =
    match requests_get u w with
    | (inl response, w1) => (Some (result_of u response w1), [u], w1)
    | (inr _, w1) => (None, [u], w1)
    end.
Proof.
  intros Hs. rewrite check_url_eq.
  destruct (requests_get u w) as [[response|e] w1]; cbv beta iota; [done|].
  rewrite Hs. by destruct (is_SSLError e).
Qed.

(** On a TLS failure an [https://] URL is retried once, and no further:
    [check_url] asks for the URL and at most for its replacement. *)
Lemma check_url_retries_once (u : str) (w w1 : World) :
  startswith s_https u = true →
  requests_get u w = (inr SSLError, w1) →
  check u w =
    match requests_get (replace s_https s_http u) w1 with
    | (inl response, w2) =>
        (Some (result_of (replace s_https s_http u) response w2),
         [u; replace s_https s_http u], w2)
    | (inr _, w2) => (None, [u; replace s_https s_http u], w2)
    end.
Proof.
  intros Hs Hget. rewrite check_url_eq, Hget. cbv beta iota.
  unfold is_SSLError. rewrite Hs.
  rewrite check_url_no_retry by by apply replace_https_not_https.
  by destruct (requests_get (replace s_https s_http u) w1) as [[response|e'] w2].
Qed.

(** [check_url] asks for its URL and for nothing else but the retry. *)
Lemma check_url_requested (u : str) (w : World) :
  request_group u (check u w).1.2.
Proof.
  rewrite check_url_eq.
  destruct (requests_get u w) as [[response|e] w1]; cbv beta iota; [by left|].
  destruct (is_SSLError e); [|by left].
  destruct (startswith s_https u) eqn:Hs; [|by left].
  rewrite check_url_no_retry by by apply replace_https_not_https.
  by destruct (requests_get (replace s_https s_http u) w1) as [[response|e'] w2];
    right.
Qed.

(** The result of [check_url], when there is one, is built from a
    response, so its host is the authority of the final URL. *)
Lemma check_url_domain (u : str) (w w' : World) r requested :
  check u w = (Some r, requested, w') → domain r = netloc (final_url r).
Proof.
  rewrite check_url_eq.
  destruct (requests_get u w) as [[response|e] w1]; cbv beta iota;
    [by intros [= <- _ _]|].
  destruct (is_SSLError e); [|done].
  destruct (startswith s_https u) eqn:Hs; [|done].
  rewrite check_url_no_retry by by apply replace_https_not_https.
  destruct (requests_get (replace s_https s_http u) w1) as [[response|e'] w2];
    cbv beta iota; [|done].
  by intros [= <- _ _].
Qed.

End CheckerFacts.

(** ** The host prober *)

Lemma slice_to_short (s : str) (j : nat) :
  (j ≤ length s)%nat → slice_to s (Z.of_nat j) = take j s.
Proof.
  intros H. unfold slice_to, slice_index, len.
  destruct (Z.of_nat j <? 0) eqn:Hneg; [lia|].
  by rewrite Z.min_l, Nat2Z.id by lia.
Qed.

Lemma slice_from_short (s : str) (j : nat) :
  (j ≤ length s)%nat → slice_from s (Z.of_nat j) = drop j s.
Proof.
  intros H. unfold slice_from, slice_index, len.
  destruct (Z.of_nat j <? 0) eqn:Hneg; [lia|].
  by rewrite Z.min_l, Nat2Z.id by lia.
Qed.

Lemma slice_nat (s : str) (i j : nat) :
  (i ≤ j ≤ length s)%nat →
  slice s (Z.of_nat i) (Z.of_nat j) = take (j - i) (drop i s).
Proof.
  intros H. unfold slice, slice_index, len.
  destruct (Z.of_nat i <? 0) eqn:Hi; [lia|].
  destruct (Z.of_nat j <? 0) eqn:Hj; [lia|].
  rewrite !Z.min_l by lia. f_equal; [lia|]. f_equal. lia.
Qed.

Lemma remove_unsafe_app (s t : str) :
  remove_unsafe (s ++ t) = remove_unsafe s ++ remove_unsafe t.
Proof. apply List.filter_app. Qed.

(** The base URLs of [probe_domain] split into their protocol and the
    rest, whatever the domain is. *)
Lemma split_scheme_https (rest : str) :
  split_scheme (py "https" ++ py "://" ++ rest)
  = (py "https", py "//" ++ remove_unsafe rest).
Proof.
  unfold split_scheme.
  change (lstrip_c0 (py "https" ++ py "://" ++ rest))
    with ((py "https" ++ py "://") ++ rest).
  rewrite remove_unsafe_app.
  change (remove_unsafe (py "https" ++ py "://")) with (py "https" ++ py "://").
  rewrite <-app_assoc. generalize (remove_unsafe rest). clear rest. intros rest.
  assert (find [ch ":"] (py "https" ++ py "://" ++ rest) 0 = 5) as ->.
  { unfold find, len. cbn [Z.ltb Z.compare].
    destruct (_ <? _) eqn:Hlen; [|reflexivity].
    apply Z.ltb_lt in Hlen. cbn in Hlen. lia. }
  rewrite (slice_to_short _ 1), (slice_to_short _ 5), (slice_from_short _ 6)
    by (cbn; lia).
  reflexivity.
Qed.

Lemma split_scheme_http (rest : str) :
  split_scheme (py "http" ++ py "://" ++ rest)
  = (py "http", py "//" ++ remove_unsafe rest).
Proof.
  unfold split_scheme.
  change (lstrip_c0 (py "http" ++ py "://" ++ rest))
    with ((py "http" ++ py "://") ++ rest).
  rewrite remove_unsafe_app.
  change (remove_unsafe (py "http" ++ py "://")) with (py "http" ++ py "://").
  rewrite <-app_assoc. generalize (remove_unsafe rest). clear rest. intros rest.
  assert (find [ch ":"] (py "http" ++ py "://" ++ rest) 0 = 4) as ->.
  { unfold find, len. cbn [Z.ltb Z.compare].
    destruct (_ <? _) eqn:Hlen; [|reflexivity].
    apply Z.ltb_lt in Hlen. cbn in Hlen. lia. }
  rewrite (slice_to_short _ 1), (slice_to_short _ 4), (slice_from_short _ 5)
    by (cbn; lia).
  reflexivity.
Qed.

(** Every candidate URL of the HTTPS pass has the scheme [https]. *)
Lemma urljoin_https (d path : str) :
  urljoin (py "https" ++ py "://" ++ d) path
  = py "https" ++ py "://" ++ fst (splitnetloc (remove_unsafe d)) ++ path.
Proof.
  unfold urljoin, scheme, netloc. rewrite split_scheme_https.
  by rewrite (slice_from_short _ 2) by (cbn; lia).
Qed.

Lemma urljoin_http (d path : str) :
  urljoin (py "http" ++ py "://" ++ d) path
  = py "http" ++ py "://" ++ fst (splitnetloc (remove_unsafe d)) ++ path.
Proof.
  unfold urljoin, scheme, netloc. rewrite split_scheme_http.
  by rewrite (slice_from_short _ 2) by (cbn; lia).
Qed.

Lemma scheme_urljoin_https (d path : str) :
  scheme (urljoin (py "https" ++ py "://" ++ d) path) = py "https".
Proof. rewrite urljoin_https. unfold scheme. by rewrite split_scheme_https. Qed.

(** *** The retry URL of a candidate *)

Lemma contains_here (c : char) (s : str) : contains c (c :: s) = true.
Proof. unfold contains. simpl. by rewrite N.eqb_refl. Qed.

Lemma contains_later (c x : char) (s : str) :
  contains c s = true → contains c (x :: s) = true.
Proof. unfold contains. simpl. intros ->. apply orb_true_r. Qed.

Lemma contains_drop (c : char) (s : str) (k : nat) :
  contains c s = false → contains c (drop k s) = false.
Proof.
  intros Hs. destruct (contains c (drop k s)) eqn:Hd; [|done].
  by rewrite <-(take_drop k s), contains_app, Hd, orb_true_r in Hs.
Qed.

(** The authority [urlparse] cuts out holds no slash. *)
Lemma splitnetloc_free (d : str) : contains (ch "/") (fst (splitnetloc d)) = false.
Proof.
  induction d as [|c d IH]; [done|]. cbn [splitnetloc].
  destruct (((c =? ch "/") || (c =? ch "?") || (c =? ch "#"))%N) eqn:Hc; [done|].
  destruct (splitnetloc d) as [n rest]. cbn [fst] in *.
  apply orb_false_iff in Hc as [[Hc _]%orb_false_iff _].
  change (contains (ch "/") (c :: n)) with ((ch "/" =? c)%N || contains (ch "/") n).
  by rewrite N.eqb_sym, Hc, IH.
Qed.

(** No entry of [paths] holds a colon or starts with two slashes. *)
Lemma paths_plain (path : str) :
  path ∈ paths → contains (ch ":") path = false ∧ startswith (py "//") path = false.
Proof.
  intros Hin.
  assert (forallb (λ p, negb (contains (ch ":") p) && negb (startswith (py "//") p))
            paths = true) as Hall by reflexivity.
  rewrite forallb_forall in Hall. apply list_elem_of_In, Hall in Hin.
  apply andb_true_iff in Hin as [H1 H2].
  by apply negb_true_iff in H1, H2.
Qed.

(** [https://] does not begin in a string without slash that is followed
    by a string without colon that does not begin with two slashes: its
    colon or its two slashes are missing. *)
Lemma no_https_across (n path : str) :
  contains (ch "/") n = false →
  contains (ch ":") path = false →
  startswith (py "//") path = false →
  startswith s_https (n ++ path) = false.
Proof.
  intros Hn Hcolon Hslashes.
  destruct (startswith s_https (n ++ path)) eqn:Hs; [exfalso|done].
  unfold s_https in Hs.
  do 6 (destruct n as [|? n];
    [ cbn [app] in Hs;
      match type of Hs with
      | startswith ?p _ = true =>
          by rewrite (startswith_contains p _ (ch ":") eq_refl Hs) in Hcolon
      end
    | rewrite <-app_comm_cons, startswith_cons in Hs;
      apply andb_true_iff in Hs as [_ Hs] ]).
  destruct n as [|slash n].
  - cbn [app] in Hs. change (py "//") with [47; 47]%N in Hslashes. congruence.
  - rewrite <-app_comm_cons, startswith_cons in Hs.
    apply andb_true_iff in Hs as [Hslash _].
    apply N.eqb_eq in Hslash as <-.
    match type of Hn with
    | ?t = false => assert (t = true) as Ht; [|congruence]
    end.
    do 6 apply contains_later. apply (contains_here (ch "/")).
Qed.

(** In a candidate URL [https://] occurs at the head only. *)
Lemma no_https_in_candidate (n path : str) (k : nat) :
  contains (ch "/") n = false →
  path ∈ paths →
  startswith s_https (drop k (n ++ path)) = false.
Proof.
  intros Hn [Hcolon Hslashes]%paths_plain.
  rewrite drop_app. destruct (decide (k - length n = 0)%nat) as [->|Hk].
  - rewrite drop_0. apply no_https_across; [by apply contains_drop|done|done].
  - rewrite drop_ge by lia. cbn [app].
    destruct (startswith s_https (drop (k - length n) path)) eqn:Hs; [|done].
    apply (startswith_contains s_https _ (ch ":")) in Hs; [|done].
    by rewrite contains_drop in Hs.
Qed.

(** [replace] leaves a string without occurrence as it is. *)
Lemma replace_absent (old new s : str) :
  (∀ k, startswith old (drop k s) = false) → replace old new s = s.
Proof.
  unfold replace. induction s as [|c s IH]; intros Hno; [done|].
  cbn [replace_from]. rewrite (Hno 0%nat : startswith old (c :: s) = false).
  f_equal. apply IH. intros k. apply (Hno (S k)).
Qed.

(** For the URLs [probe_domain] builds, the retry of [check_url] is the
    HTTP candidate of the same host and path. *)
Lemma candidate_retry (d path : str) :
  path ∈ paths →
  replace s_https s_http (urljoin (py "https" ++ py "://" ++ d) path)
  = urljoin (py "http" ++ py "://" ++ d) path.
Proof.
  intros Hpath. rewrite urljoin_https, urljoin_http.
  change (py "https" ++ py "://" ++ ?rest) with (s_https ++ rest).
  change (py "http" ++ py "://" ++ ?rest) with (s_http ++ rest).
  apply replace_https_head, replace_absent. intros k.
  apply no_https_in_candidate; [apply splitnetloc_free | done].
Qed.

Section ProberFacts.

Variable World : Type.
Variable requests_get : str → World → (Response + exn) * World.
Variable now : World → str.
Variable sleep : World → World.

Local Abbreviation check := (check_url World requests_get now).
Local Abbreviation scan := (path_loop World requests_get now sleep).
Local Abbreviation scan_protocols := (protocol_loop World requests_get now sleep).
Local Abbreviation run := (probe_domain_run World requests_get now sleep).

Lemma protocol_loop_cons (protocol : str) (protocols : list str) (d : str)
    (st : ProbeState World) :
  scan_protocols (protocol :: protocols) d st =
    let st' := scan protocol (protocol ++ py "://" ++ d) paths st in
    if negb (bool_decide (found_urls _ st' = [])) && bool_decide (protocol = py "https")
    then st'
    else scan_protocols protocols d st'.
Proof. reflexivity. Qed.

(** One turn of the path loop that records a 200 under [https]. *)
Lemma path_loop_https_200 (base path : str) (ps : list str) (st : ProbeState World)
    (r : ProbeResult) (gets : list str) (w1 : World) :
  check (urljoin base path) (world _ st) = (Some r, gets, w1) →
  status_code r = 200 →
  scan (py "https") base (path :: ps) st
  = {| found_urls := found_urls _ st ++ [r];
       attempted := attempted _ st ++ [urljoin base path];
       requested := requested _ st ++ gets;
       world := w1 |}.
Proof. intros Hcheck H200. simpl. by rewrite Hcheck, H200. Qed.

(** *** Only results below 500 are recorded *)

Lemma path_loop_below_500 (protocol base : str) (ps : list str) (st : ProbeState World) :
  Forall (λ r, status_code r < 500) (found_urls _ st) →
  Forall (λ r, status_code r < 500) (found_urls _ (scan protocol base ps st)).
Proof.
  revert st. induction ps as [|path ps IH]; intros st Hst; [done|].
  simpl. destruct (check _ _) as [[[r|] requested] w1]; [|by apply IH].
  destruct (status_code r <? 500) eqn:Hlt; [|by apply IH].
  apply Z.ltb_lt in Hlt.
  assert (Forall (λ r, status_code r < 500) (found_urls _ st ++ [r])).
  { apply Forall_app. split; [done|]. by constructor. }
  destruct (_ && _); [done|]. by apply IH.
Qed.

Lemma protocol_loop_below_500 (protocols : list str) (d : str) (st : ProbeState World) :
  Forall (λ r, status_code r < 500) (found_urls _ st) →
  Forall (λ r, status_code r < 500) (found_urls _ (scan_protocols protocols d st)).
Proof.
  revert st. induction protocols as [|protocol protocols IH]; intros st Hst; [done|].
  rewrite protocol_loop_cons. cbv zeta.
  pose proof (path_loop_below_500 protocol (protocol ++ py "://" ++ d) paths st Hst).
  destruct (_ && _); [done|]. by apply IH.
Qed.

(** *** What the path loop attempts *)

(** The loop only ever extends [found_urls]. *)
Lemma path_loop_found_prefix (protocol base : str) (ps : list str) (st : ProbeState World) :
  found_urls _ st `prefix_of` found_urls _ (scan protocol base ps st).
Proof.
  revert st. induction ps as [|path ps IH]; intros st; [done|].
  simpl. destruct (check _ _) as [[[r|] requested] w1]; [|exact (IH _)].
  destruct (status_code r <? 500); [|exact (IH _)].
  destruct (_ && _); simpl; [by apply prefix_app_r|].
  etrans; [|exact (IH _)]. by apply prefix_app_r.
Qed.

(** The URLs handed to [check_url] are the candidates of a leading part
    of the path list, in order. *)
Lemma path_loop_attempted (protocol base : str) (ps : list str) (st : ProbeState World) :
  ∃ k, attempted _ (scan protocol base ps st)
       = attempted _ st ++ map (urljoin base) (take k ps).
Proof.
  revert st. induction ps as [|path ps IH]; intros st.
  { exists 0%nat. simpl. by rewrite app_nil_r. }
  assert (∀ st', attempted _ st' = attempted _ st ++ [urljoin base path] →
    ∃ k, attempted _ (scan protocol base ps st')
         = attempted _ st ++ map (urljoin base) (take k (path :: ps))) as Hnext.
  { intros st' Hst'. destruct (IH st') as [k Hk]. exists (S k).
    rewrite Hk, Hst'. simpl. by rewrite <-app_assoc. }
  simpl. destruct (check _ _) as [[[r|] requested] w1]; [|by apply Hnext].
  destruct (status_code r <? 500); [|by apply Hnext].
  destruct (_ && _); [|by apply Hnext].
  exists 1%nat. by destruct ps.
Qed.

(** As long as no result with status 200 is recorded, the loop does not
    leave early: it goes through the whole list. *)
Lemma path_loop_app (protocol base : str) (pre rest : list str) (st : ProbeState World) :
  Forall (λ r, status_code r ≠ 200) (found_urls _ (scan protocol base pre st)) →
  scan protocol base (pre ++ rest) st = scan protocol base rest (scan protocol base pre st)
  ∧ attempted _ (scan protocol base pre st)
    = attempted _ st ++ map (urljoin base) pre.
Proof.
  revert st. induction pre as [|path pre IH]; intros st.
  { intros _. simpl. by rewrite app_nil_r. }
  assert (∀ st', attempted _ st' = attempted _ st ++ [urljoin base path] →
    Forall (λ r, status_code r ≠ 200) (found_urls _ (scan protocol base pre st')) →
    scan protocol base (pre ++ rest) st' = scan protocol base rest (scan protocol base pre st')
    ∧ attempted _ (scan protocol base pre st')
      = attempted _ st ++ map (urljoin base) (path :: pre)) as Hnext.
  { intros st' Hst' Hno. destruct (IH st' Hno) as [-> ->]. split; [done|].
    rewrite Hst'. simpl. by rewrite <-app_assoc. }
  simpl. destruct (check _ _) as [[[r|] requested] w1]; [|by apply Hnext].
  destruct (status_code r <? 500); [|by apply Hnext].
  destruct (_ && _) eqn:Hbreak; [|by apply Hnext].
  intros Hno. exfalso. simpl in Hno.
  apply andb_true_iff in Hbreak as [_ H200]. apply Z.eqb_eq in H200.
  apply Forall_app in Hno as [_ Hr]. by inversion Hr.
Qed.

(** The requests of a run are those of its candidate URLs, in order:
    each candidate, followed or not by its retry. *)
Lemma path_loop_grouped (protocol base : str) (ps : list str) (st : ProbeState World) :
  (∃ groups, requested _ st = concat groups
             ∧ Forall2 request_group (attempted _ st) groups) →
  ∃ groups, requested _ (scan protocol base ps st) = concat groups
            ∧ Forall2 request_group (attempted _ (scan protocol base ps st)) groups.
Proof.
  revert st. induction ps as [|path ps IH]; intros st Hst; [done|].
  destruct Hst as (groups & Hreq & Hgroups).
  pose proof (check_url_requested World requests_get now
                (urljoin base path) (world _ st)) as Hgets.
  simpl. destruct (check _ _) as [[result gets] w1]. cbn [fst snd] in Hgets.
  assert (∃ groups', requested _ st ++ gets = concat groups'
            ∧ Forall2 request_group (attempted _ st ++ [urljoin base path]) groups')
    as Hnext.
  { exists (groups ++ [gets]). rewrite concat_app, Hreq. simpl.
    rewrite app_nil_r. split; [done|]. apply Forall2_app; [done|]. by constructor. }
  destruct result as [r|]; [|by apply IH].
  destruct (status_code r <? 500); [|by apply IH].
  destruct (_ && _); [done | by apply IH].
Qed.

Lemma probe_domain_grouped (d : str) (w : World) :
  ∃ groups, requested _ (run d w) = concat groups
            ∧ Forall2 request_group (attempted _ (run d w)) groups.
Proof.
  unfold probe_domain_run.
  assert (∃ groups, requested _ (start World w) = concat groups
            ∧ Forall2 request_group (attempted _ (start World w)) groups) as Hstart.
  { exists []. by split; [|constructor]. }
  revert Hstart. generalize (start World w) as st.
  induction [py "https"; py "http"] as [|protocol protocols IH]; intros st Hst; [done|].
  rewrite protocol_loop_cons. cbv zeta.
  pose proof (path_loop_grouped protocol (protocol ++ py "://" ++ d) paths st Hst).
  destruct (_ && _); [done | by apply IH].
Qed.

(** On a TLS failure a candidate URL of the HTTPS pass is retried once,
    as the HTTP candidate of the same host and path. *)
Lemma check_candidate_retry (d path : str) (w w1 : World) :
  let https_url := urljoin (py "https" ++ py "://" ++ d) path in
  let http_url := urljoin (py "http" ++ py "://" ++ d) path in
  path ∈ paths →
  requests_get https_url w = (inr SSLError, w1) →
  check https_url w =
    match requests_get http_url w1 with
    | (inl response, w2) =>
        (Some (make_result World now http_url response w2), [https_url; http_url], w2)
    | (inr _, w2) => (None, [https_url; http_url], w2)
    end.
Proof.
  intros https_url http_url Hpath Hget.
  rewrite (check_url_retries_once World requests_get now https_url w w1);
    [ | unfold https_url; rewrite urljoin_https; apply (startswith_app s_https)
      | done ].
  unfold https_url, http_url. by rewrite candidate_retry.
Qed.

(** *** The claims on [probe_domain] and [check_url] *)


(** C1.  Every element of the collection [probe_domain] returns has a
    status code strictly below 500, for every host and every network. *)
Theorem probe_domain_status_below_500 (d : str) (w : World) :
  Forall (λ r, status_code r < 500)
    (probe_domain World requests_get now sleep d w).
Proof.
  unfold probe_domain, probe_domain_run.
  by apply protocol_loop_below_500.
Qed.

(** C2.  When the HTTPS pass reaches path [P] (no earlier path recorded a
    200) and the result on [P] has status 200, the candidate URLs handed
    to [check_url] are the HTTPS candidates of the paths up to [P] and
    nothing else: no path after [P], and no HTTP pass. *)
Theorem https_200_ends_probing (d : str) (w : World) (pre post : list str) (P : str)
    (r : ProbeResult) (gets : list str) (w' : World) :
  let base := py "https" ++ py "://" ++ d in
  let st_pre := scan (py "https") base pre (start World w) in
  paths = pre ++ P :: post →
  Forall (λ x, status_code x ≠ 200) (found_urls _ st_pre) →
  check (urljoin base P) (world _ st_pre) = (Some r, gets, w') →
  status_code r = 200 →
  run d w = {| found_urls := found_urls _ st_pre ++ [r];
               attempted := map (urljoin base) (pre ++ [P]);
               requested := requested _ st_pre ++ gets;
               world := w' |}
  ∧ Forall (λ u, scheme u = py "https") (attempted _ (run d w)).
Proof.
  intros base st_pre Hpaths Hno Hcheck H200.
  assert (run d w = {| found_urls := found_urls _ st_pre ++ [r];
                       attempted := map (urljoin base) (pre ++ [P]);
                       requested := requested _ st_pre ++ gets;
                       world := w' |}) as Hrun.
  { unfold probe_domain_run. rewrite protocol_loop_cons. cbv zeta.
    fold base. rewrite Hpaths.
    destruct (path_loop_app (py "https") base pre (P :: post) (start World w) Hno)
      as [-> Hatt].
    fold st_pre in Hatt |- *.
    rewrite (path_loop_https_200 _ _ _ _ _ _ _ Hcheck H200), Hatt, map_app.
    cbn [found_urls attempted requested world start app map].
    by destruct (found_urls _ st_pre). }
  split; [done|]. rewrite Hrun. cbn [attempted].
  apply Forall_map, Forall_forall. intros path _. apply scheme_urljoin_https.
Qed.

(** C3.  When the HTTPS path loop ends with a result recorded, it is the
    whole run: the HTTP pass is skipped, and every candidate URL handed
    to [check_url] for the host has the scheme [https]. *)
Theorem https_result_skips_http (d : str) (w : World) :
  let st1 := scan (py "https") (py "https" ++ py "://" ++ d) paths (start World w) in
  found_urls _ st1 ≠ [] →
  run d w = st1
  ∧ Forall (λ u, scheme u = py "https") (attempted _ (run d w)).
Proof.
  intros st1 Hfound.
  assert (run d w = st1) as Hrun.
  { unfold probe_domain_run. rewrite protocol_loop_cons. cbv zeta. fold st1.
    by rewrite bool_decide_eq_false_2. }
  split; [done|]. rewrite Hrun. unfold st1.
  destruct (path_loop_attempted (py "https") (py "https" ++ py "://" ++ d)
              paths (start World w)) as [k ->].
  simpl. apply Forall_map, Forall_forall. intros path _. apply scheme_urljoin_https.
Qed.

(** C5.  When the GET fails with an exception that is not a TLS failure,
    [check_url] returns [None]: it asks for the URL once and hands no
    exception to its caller. *)
Theorem check_url_absorbs_exception (u : str) (w w1 : World) (e : exn) :
  requests_get u w = (inr e, w1) →
  e ≠ SSLError →
  check u w = (None, [u], w1).
Proof.
  intros Hget He. rewrite check_url_eq, Hget. cbv beta iota.
  by destruct e.
Qed.

End ProberFacts.

(** On a host where only [/index.html] answers 200, the HTTPS pass
    records the 404 of [/], then the 200, and the run ends there. *)
Lemma https_200_ends_probing_witness :
  probe_domain_run unit one_page clock no_sleep (py "a.cu") tt
  = {| found_urls :=
         [make_result unit clock (py "https://a.cu/")
            (page 404 (py "https://a.cu/") []) tt;
          make_result unit clock (py "https://a.cu/index.html")
            (page 200 (py "https://a.cu/index.html") (py "<title>ok</title>")) tt];
       attempted := [py "https://a.cu/"; py "https://a.cu/index.html"];
       requested := [py "https://a.cu/"; py "https://a.cu/index.html"];
       world := tt |}
  ∧ Forall (λ u, scheme u = py "https")
      (attempted _ (probe_domain_run unit one_page clock no_sleep (py "a.cu") tt)).
Proof.
  apply (https_200_ends_probing unit one_page clock no_sleep (py "a.cu") tt
           [py "/"] (drop 2 paths) (py "/index.html") _
           [py "https://a.cu/index.html"] tt).
  - reflexivity.
  - repeat constructor. discriminate.
  - reflexivity.
  - reflexivity.
Defined.

(** A host on which TLS fails and HTTP answers: the one candidate of the
    HTTPS pass is retried over HTTP, its result is recorded with the
    [http] URL, and the run ends without an HTTP pass. *)
Example tls_fallback_run :
  probe_domain_run unit tls_broken clock no_sleep (py "a.cu") tt
  = {| found_urls := [make_result unit clock (py "http://a.cu/")
                        (page 200 (py "http://a.cu/") (py "<title>ok</title>")) tt];
       attempted := [py "https://a.cu/"];
       requested := [py "https://a.cu/"; py "http://a.cu/"];
       world := tt |}.
Proof. by vm_compute. Qed.

(** On that host the HTTPS loop records a result, so it is the whole
    run. *)
Lemma https_result_skips_http_witness :
  probe_domain_run unit tls_broken clock no_sleep (py "a.cu") tt
  = path_loop unit tls_broken clock no_sleep (py "https") (py "https://a.cu")
      paths (start unit tt)
  ∧ Forall (λ u, scheme u = py "https")
      (attempted _ (probe_domain_run unit tls_broken clock no_sleep (py "a.cu") tt)).
Proof.
  apply (https_result_skips_http unit tls_broken clock no_sleep (py "a.cu") tt).
  vm_compute. discriminate.
Defined.

(** A request that times out gives no result and no retry. *)
Lemma check_url_absorbs_exception_witness :
  check_url unit all_timeout clock (py "https://a.cu/") tt
  = (None, [py "https://a.cu/"], tt).
Proof.
  apply (check_url_absorbs_exception unit all_timeout clock _ tt tt Timeout);
    [reflexivity | discriminate].
Defined.


(** Called on its own with a URL that carries another URL in its path,
    [check_url] rewrites every [https://] of it, as [str.replace] does;
    [probe_domain] builds no such URL ([candidate_retry]). *)
Example check_url_replaces_all :
  let asked := py "https://a.cu/https://b.cu" in
  let retried := py "http://a.cu/http://b.cu" in
  check_url unit tls_broken clock asked tt
  = (Some (make_result unit clock retried (page 200 retried (py "<title>ok</title>")) tt),
     [asked; retried], tt).
Proof. by vm_compute. Qed.

(** ** The dispatcher *)

Lemma fold_collect (m : gmap nat str) (result : nat → task_end)
    (completed : list nat) (st : Dispatch) :
  discovered_urls (fold_left (collect m result) completed st)
  = discovered_urls st ++ flat_map (λ i, returned (result i)) completed
  ∧ errors (fold_left (collect m result) completed st)
    = errors st ++ flat_map (λ i, failure (default [] (m !! i)) (result i)) completed.
Proof.
  revert st. induction completed as [|i completed IH]; intros st; simpl.
  { by rewrite !app_nil_r. }
  destruct (IH (collect m result st i)) as [-> ->].
  unfold collect. destruct (result i) as [results|e]; simpl.
  - case_bool_decide as Hres; simpl.
    + by rewrite Hres.
    + by rewrite <-app_assoc.
  - by rewrite <-app_assoc.
Qed.

(** C6.  One task is submitted per host of the list; whatever the order
    in which the futures complete, [probe_all_domains] returns with the
    results of every task that returned, nothing for a task that raised,
    and one error line for each task that raised. *)
Theorem probe_all_domains_isolates_failures (domains : list str)
    (result : nat → task_end) (completed : list nat) (st : Dispatch) :
  completed ≡ₚ seq 0 (length domains) →
  let final := probe_all_domains domains result completed st in
  (∀ i, submit_all domains !! i = domains !! i)
  ∧ discovered_urls final
    ≡ₚ discovered_urls st
       ++ flat_map (λ i, returned (result i)) (seq 0 (length domains))
  ∧ errors final
    ≡ₚ errors st
       ++ flat_map (λ i, failure (default [] (domains !! i)) (result i))
            (seq 0 (length domains)).
Proof.
  intros Hdone final. split; [intros i; apply lookup_map_seq_0|].
  unfold final, probe_all_domains.
  destruct (fold_collect (submit_all domains) result completed st) as [-> ->].
  rewrite !Hdone. split; [done|].
  rewrite (flat_map_ext _ (λ i, failure (default [] (domains !! i)) (result i)));
    [done|].
  intros i. unfold submit_all. by rewrite lookup_map_seq_0.
Qed.

(** Three hosts; the task of the second raises, the third finds nothing,
    and the futures complete out of order. *)
Lemma probe_all_domains_isolates_failures_witness :
  let domains := [py "a.cu"; py "b.cu"; py "c.cu"] in
  let found := make_result unit clock (py "https://a.cu/")
                 (page 200 (py "https://a.cu/") []) tt in
  let result := λ i : nat,
    match i with
    | 0%nat => Returned [found]
    | 1%nat => Raised (py "boom")
    | _ => Returned []
    end in
  let final := probe_all_domains domains result [1; 0; 2]%nat
                 {| discovered_urls := []; errors := [] |} in
  (∀ i, submit_all domains !! i = domains !! i)
  ∧ discovered_urls final ≡ₚ [found]
  ∧ errors final ≡ₚ [(py "b.cu", py "boom")].
Proof.
  intros domains found result final.
  apply (probe_all_domains_isolates_failures domains result [1; 0; 2]%nat
           {| discovered_urls := []; errors := [] |}).
  simpl. apply perm_swap.
Defined.

(** ** The summary *)

Lemma count_up_lookup `{Countable K} (k j : K) (d : gmap K nat) :
  count_up k d !! j
  = if decide (k = j) then Some (S (default 0%nat (d !! k))) else d !! j.
Proof.
  unfold count_up. destruct (decide (k = j)) as [<-|Hne].
  - rewrite lookup_alter_eq. case_bool_decide as Hk.
    + rewrite lookup_insert_eq, Hk. done.
    + destruct (d !! k) as [n|]; [|done]. simpl. f_equal. lia.
  - rewrite lookup_alter_ne by done. case_bool_decide; [|done].
    by rewrite lookup_insert_ne.
Qed.

Lemma tally_snoc {A} `{EqDecision K} (key : A → K) (k : K) (l : list A) (x : A) :
  tally key k (l ++ [x])
  = (tally key k l + if decide (key x = k) then 1 else 0)%nat.
Proof.
  unfold tally. rewrite filter_app, length_app. f_equal.
  rewrite filter_cons, filter_nil. by destruct (decide (key x = k)).
Qed.

Lemma entry_default (n : nat) : default 0%nat (entry n) = n.
Proof. by destruct n. Qed.

(** The loop of [generate_summary_report] counts the results by host and
    by status code. *)
Lemma summary_tables (l : list ProbeResult) :
  let tables := fold_left summarize_one l (∅, ∅) in
  (∀ h, tables.1 !! h = entry (tally domain h l))
  ∧ (∀ c, tables.2 !! c = entry (tally status_code c l)).
Proof.
  induction l as [|x l IH] using rev_ind; simpl.
  { split; intros; apply lookup_empty. }
  rewrite fold_left_app. simpl. destruct IH as [IHd IHs].
  split; intros k; rewrite count_up_lookup, tally_snoc.
  - destruct (decide (domain x = k)) as [<-|]; [|by rewrite Nat.add_0_r].
    rewrite IHd, entry_default, Nat.add_1_r. done.
  - destruct (decide (status_code x = k)) as [<-|]; [|by rewrite Nat.add_0_r].
    rewrite IHs, entry_default, Nat.add_1_r. done.
Qed.



(** ** Title extraction *)

(** *** [find] and the first occurrence *)

Lemma startswith_length (sub s : str) :
  startswith sub s = true → (length sub ≤ length s)%nat.
Proof. intros [rest ->]%startswith_inv. rewrite length_app. lia. Qed.

Lemma startswith_app_long (sub X Y : str) :
  (length sub ≤ length X)%nat → startswith sub (X ++ Y) = startswith sub X.
Proof.
  revert X. induction sub as [|p sub IH]; intros X Hlen; [done|].
  destruct X as [|x X]; simpl in *; [lia|].
  rewrite IH by lia. done.
Qed.

Lemma occurrence_bound (sub s : str) (n : nat) :
  occurrence sub s = Some n → (n + length sub ≤ length s)%nat.
Proof.
  revert n. induction s as [|c s IH]; intros n; cbn [occurrence].
  - destruct (startswith sub []) eqn:Hs; [|done].
    intros [= <-]. by apply startswith_length in Hs.
  - destruct (startswith sub (c :: s)) eqn:Hs.
    + intros [= <-]. by apply startswith_length in Hs.
    + destruct (occurrence sub s) as [m|]; [|done].
      intros [= <-]. specialize (IH m eq_refl). simpl. lia.
Qed.

(** An occurrence found in a string is the first one of any extension. *)
Lemma occurrence_app (sub X Y : str) (n : nat) :
  occurrence sub X = Some n → occurrence sub (X ++ Y) = Some n.
Proof.
  revert n. induction X as [|x X IH]; intros n; cbn [occurrence].
  - destruct (startswith sub []) eqn:Hs; [|done]. intros [= <-].
    apply startswith_length in Hs. destruct sub; [|simpl in Hs; lia].
    by destruct Y.
  - destruct (startswith sub (x :: X)) eqn:Hs.
    + intros [= <-]. change ((x :: X) ++ Y) with (x :: X ++ Y). cbn [occurrence].
      change (x :: X ++ Y) with ((x :: X) ++ Y).
      rewrite startswith_app_long, Hs; [done|]. by apply startswith_length.
    + destruct (occurrence sub X) as [m|] eqn:Hm; [|done]. intros [= <-].
      change ((x :: X) ++ Y) with (x :: X ++ Y). cbn [occurrence].
      change (x :: X ++ Y) with ((x :: X) ++ Y).
      rewrite startswith_app_long, Hs, (IH m eq_refl); [done|].
      apply occurrence_bound in Hm. simpl. lia.
Qed.

Lemma find_at_occurrence (sub s : str) (pos : Z) :
  find_at sub s pos
  = match occurrence sub s with Some n => pos + Z.of_nat n | None => -1 end.
Proof.
  revert pos. induction s as [|c s IH]; intros pos; cbn [find_at occurrence].
  - destruct (startswith sub []); [lia | done].
  - destruct (startswith sub (c :: s)); [lia|].
    rewrite IH. destruct (occurrence sub s); simpl; [lia | done].
Qed.

(** [find] from a position inside the string is the first occurrence in
    what follows that position. *)
Lemma find_from (sub s : str) (i : nat) :
  (i ≤ length s)%nat →
  find sub s (Z.of_nat i)
  = match occurrence sub (drop i s) with
    | Some n => Z.of_nat (i + n)
    | None => -1
    end.
Proof.
  intros Hi. unfold find, len.
  destruct (Z.of_nat i <? 0) eqn:Hneg; [lia|].
  rewrite Nat2Z.id, find_at_occurrence.
  destruct (occurrence sub (drop i s)) as [n|] eqn:Hn.
  - apply occurrence_bound in Hn. rewrite length_drop in Hn.
    destruct (Z.of_nat (length s) - Z.of_nat i <? Z.of_nat (length sub)) eqn:Hlt; lia.
  - by destruct (Z.of_nat (length s) - Z.of_nat i <? Z.of_nat (length sub)).
Qed.

(** The closing tag does not occur inside the opening tag. *)
Lemma occurrence_close_after_open (rest : str) :
  occurrence s_title_close (s_title_open ++ rest)
  = (λ n, 7 + n)%nat <$> occurrence s_title_close rest.
Proof.
  unfold s_title_open, s_title_close. cbn.
  by destruct (occurrence _ rest).
Qed.

(** On a plain string [lower] keeps every character at its position. *)
Lemma lower_in_plain_length (before s after : str) :
  plain s → length (lower_in before s after) = length s.
Proof.
  intros Hs. revert before. induction Hs as [|c s Hc Hs IH]; intros before; [done|].
  rewrite lower_in_cons, length_app, lower_at_plain, IH; done.
Qed.

Lemma lower_plain_length (s : str) : plain s → length (lower s) = length s.
Proof. apply lower_in_plain_length. Qed.

(** An index is not the sentinel [-1]. *)
Lemma index_found (n : nat) : (Z.of_nat n =? -1) = false.
Proof. apply Z.eqb_neq. lia. Qed.

(** *** What [extract_title] returns *)

(** The title is cut to 200 characters. *)
Lemma extract_title_length (html : str) : (length (extract_title html) ≤ 200)%nat.
Proof.
  unfold extract_title. destruct (negb _); [|simpl; lia].
  destruct (negb _); [|simpl; lia].
  unfold slice_to, slice_index. rewrite length_take.
  destruct (200 <? 0) eqn:Hneg; [done|]. lia.
Qed.

(** Without a [<title>] in the lower-cased page the title is empty. *)
Lemma extract_title_absent (html : str) :
  occurrence s_title_open (lower html) = None → extract_title html = [].
Proof.
  intros Hnone. unfold extract_title.
  rewrite (find_from _ _ 0) by lia. rewrite drop_0, Hnone. done.
Qed.

(** The title cut out when the lower-cased page has the two tags at the
    positions they have in the page itself. *)
Lemma extract_title_positions (pre o mid c post P M L : str) :
  lower (pre ++ o ++ mid ++ c ++ post)
  = (P ++ s_title_open) ++ M ++ s_title_close ++ L →
  length P = length pre →
  length o = 7%nat →
  length M = length mid →
  occurrence s_title_open (P ++ s_title_open) = Some (length pre) →
  occurrence s_title_close (M ++ s_title_close) = Some (length mid) →
  extract_title (pre ++ o ++ mid ++ c ++ post) = slice_to (strip mid) 200.
Proof.
  intros Hlower Lpre Lo Lmid Hopen Hclose.
  unfold extract_title. rewrite Hlower.
  rewrite (find_from _ _ 0) by lia.
  rewrite drop_0, (occurrence_app _ _ _ _ Hopen). cbn [Nat.add negb].
  rewrite index_found. cbn [negb].
  rewrite find_from by (rewrite !length_app; lia).
  rewrite <-app_assoc, <-Lpre, drop_app_length, occurrence_close_after_open.
  rewrite (app_assoc M), (occurrence_app _ _ _ _ Hclose).
  cbn [fmap option_fmap option_map].
  rewrite index_found. cbn [negb]. f_equal. f_equal.
  rewrite !Lpre.
  replace (Z.of_nat (length pre) + 7) with (Z.of_nat (length (pre ++ o)))
    by (rewrite length_app; lia).
  rewrite slice_nat by (rewrite !length_app; lia).
  rewrite (app_assoc pre o), drop_app_length.
  replace (_ - _)%nat with (length mid) by (rewrite length_app; lia).
  apply take_app_length.
Qed.

(** A tag, in whatever case it is written, starts with [<], ends with
    [>] and holds no capital sigma. *)
Lemma lower_title_open (o : str) :
  lower o = s_title_open →
  contains 931%N o = false ∧ ∃ inner, o = [60%N] ++ inner ++ [62%N].
Proof.
  intros Ho. unfold lower in Ho.
  destruct (lower_in_image [] o []) as (Hsigma & _ & Hmap);
    [by rewrite Ho..|].
  split; [done|]. rewrite Ho in Hmap. unfold s_title_open in Hmap.
  destruct o as [|x1 [|x2 [|x3 [|x4 [|x5 [|x6 [|x7 [|x8 o]]]]]]]]; try done.
  cbn [map] in Hmap. injection Hmap as H1 _ _ _ _ _ H7.
  symmetry in H1, H7.
  apply (unmoved_preimage 60%N) in H1 as ->; [|by vm_compute].
  apply (unmoved_preimage 62%N) in H7 as ->; [|by vm_compute].
  by exists [x2; x3; x4; x5; x6].
Qed.

Lemma lower_title_close (c : str) :
  lower c = s_title_close → contains 931%N c = false ∧ ∃ rest, c = 60%N :: rest.
Proof.
  intros Hc. unfold lower in Hc.
  destruct (lower_in_image [] c []) as (Hsigma & _ & Hmap);
    [by rewrite Hc..|].
  split; [done|]. rewrite Hc in Hmap. unfold s_title_close in Hmap.
  destruct c as [|x1 rest]; [done|].
  cbn [map] in Hmap. injection Hmap as H1 _. symmetry in H1.
  apply (unmoved_preimage 60%N) in H1 as ->; [|by vm_compute].
  by exists rest.
Qed.

(** Neither [<] nor [>] is cased or case-ignorable, so no capital sigma
    is lowered by what stands on the other side of one of them. *)
Lemma first_cased_tag (c : char) (s : str) :
  c = 60%N ∨ c = 62%N → first_cased (c :: s) = false.
Proof. rewrite first_cased_cons. by intros [->| ->]. Qed.

(** On a page whose text up to the title is plain, [extract_title]
    returns the text between the first [<title>], in any case, and the
    first [</title>] after it, stripped and cut to 200 characters. *)
Lemma extract_title_plain (pre o mid c post : str) :
  plain (pre ++ o ++ mid) →
  lower o = s_title_open →
  lower c = s_title_close →
  occurrence s_title_open (lower (pre ++ o)) = Some (length pre) →
  occurrence s_title_close (lower (mid ++ c)) = Some (length mid) →
  extract_title (pre ++ o ++ mid ++ c ++ post) = slice_to (strip mid) 200.
Proof.
  intros Hplain Ho Hc Hopen Hclose.
  apply Forall_app in Hplain as [Hpre [Hpo Hmid]%Forall_app].
  pose proof (lower_plain_length _ Hpo) as Lo.
  rewrite Ho in Lo. change (length s_title_open) with 7%nat in Lo.
  destruct (lower_title_open o Ho) as (Hosigma & inner & Hends).
  destruct (lower_title_close c Hc) as (Hcsigma & rest & Hhead).
  (* the tags are lowered in the same way wherever they stand *)
  assert (∀ before after, lower_in before o after = s_title_open) as Ho'.
  { intros before after. rewrite <-Ho. by apply lower_in_no_sigma. }
  assert (∀ before after, lower_in before c after = s_title_close) as Hc'.
  { intros before after. rewrite <-Hc. by apply lower_in_no_sigma. }
  (* what precedes a tag is lowered as if nothing followed the tag *)
  assert (∀ after, first_cased (o ++ after) = false) as Hofirst.
  { intros after. rewrite Hends. apply first_cased_tag. by left. }
  assert (∀ after, first_cased (c ++ after) = false) as Hcfirst.
  { intros after. rewrite Hhead. apply first_cased_tag. by left. }
  assert (∀ before, first_cased (rev o ++ before) = false) as Holast.
  { intros before. rewrite Hends, !rev_app_distr. apply first_cased_tag. by right. }
  set (P := lower_in [] pre (o ++ [])).
  set (M := lower_in [] mid (c ++ [])).
  assert (lower (pre ++ o) = P ++ s_title_open) as HPo.
  { unfold lower. by rewrite lower_in_app, Ho'. }
  assert (lower (mid ++ c) = M ++ s_title_close) as HMc.
  { unfold lower. by rewrite lower_in_app, Hc'. }
  rewrite HPo in Hopen. rewrite HMc in Hclose.
  apply (extract_title_positions pre o mid c post P M
           (lower_in (rev c ++ rev mid ++ rev o ++ rev pre ++ []) post []));
    [|by apply lower_in_plain_length|done|by apply lower_in_plain_length|done..].
  unfold lower.
  rewrite (lower_in_app [] pre), (lower_in_app _ o), (lower_in_app _ mid),
    (lower_in_app _ c), Ho', Hc', <-!app_assoc.
  f_equal; [|f_equal; f_equal].
  - apply lower_in_context; [done|]. by rewrite !Hofirst.
  - apply lower_in_context; [|by rewrite !Hcfirst].
    by rewrite Holast.
Qed.

Example extract_title_plain_page :
  extract_title (py "<html>" ++ py "<TITLE>" ++ py " Portal " ++ py "</Title>"
                 ++ py "</html>")
  = py "Portal".
Proof.
  rewrite extract_title_plain; [reflexivity| |reflexivity..].
  unfold plain. apply Forall_forall. intros x Hx ->. revert Hx.
  apply (bool_decide_unpack (304%N ∉ _)). by vm_compute.
Qed.

(** C8.  The positions of the tags are found in [html.lower()] and used
    in [html]; a capital I with dot above (U+0130) in front of the title
    makes the lower-cased copy one character longer, and the text cut out
    is not the text between the tags. *)
Theorem extract_title_shifted :
  let html := [304%N] ++ py "<title>abc</title>" in
  length (lower html) = S (length html)
  ∧ extract_title html = py "bc<".
Proof. vm_compute. done. Qed.

(** ** Domain normalisation *)

(** Every name [clean_domain] returns is [cleaned]. *)
Lemma clean_domain_cleaned (s : str) : cleaned (clean_domain s).
Proof.
  unfold clean_domain.
  set (d0 := strip s).
  set (d1 := if startswith s_http d0 then slice_from d0 7
             else if startswith s_https d0 then slice_from d0 8 else d0).
  set (d2 := if startswith s_www d1 then slice_from d1 4 else d1).
  set (f1 := first (split (ch "/") d2)).
  set (f2 := first (split (ch "?") f1)).
  set (d3 := first (split (ch "#") f2)).
  set (d4 := if contains (ch ":") d3 then first (split (ch ":") d3) else d3).
  assert (Forall (λ c, contains c d4 = false) separators) as Hfree.
  { assert (contains (ch "/") d3 = false).
    { by do 2 apply first_split_keeps_free; apply first_split_free. }
    assert (contains (ch "?") d3 = false).
    { by apply first_split_keeps_free, first_split_free. }
    assert (contains (ch "#") d3 = false) by apply first_split_free.
    unfold d4. destruct (contains (ch ":") d3) eqn:Hport.
    - repeat constructor;
        try (by apply first_split_keeps_free); apply first_split_free.
    - by repeat constructor. }
  assert (Forall (λ c, contains c (lower d4) = false) separators) as Hlow.
  { apply Forall_forall. intros c Hc. rewrite contains_lower by done.
    by eapply Forall_forall in Hfree. }
  split; [apply lower_idem|]. split; [done|].
  assert (contains (ch ":") (lower d4) = false) as Hcolon.
  { eapply Forall_forall in Hlow; [done|]. unfold separators. set_solver. }
  split.
  - destruct (startswith s_http (lower d4)) eqn:Hs; [|done].
    by rewrite (startswith_contains s_http _ (ch ":")) in Hcolon.
  - destruct (startswith s_https (lower d4)) eqn:Hs; [|done].
    by rewrite (startswith_contains s_https _ (ch ":")) in Hcolon.
Qed.

Lemma first_split_absent (sep : char) (s : str) :
  contains sep s = false → first (split sep s) = s.
Proof.
  induction s as [|c s IH]; [done|].
  rewrite first_split_cons.
  change (contains sep (c :: s)) with ((sep =? c)%N || contains sep s).
  intros [Hc Hs]%orb_false_iff. rewrite N.eqb_sym, Hc, IH; done.
Qed.

(** A cleaned name without outer white space and without the prefix
    [www.] is a fixed point of [clean_domain]. *)
Lemma clean_domain_fixed (t : str) :
  cleaned t → strip t = t → startswith s_www t = false → clean_domain t = t.
Proof.
  intros (Hlower & Hfree & Hhttp & Hhttps) Hstrip Hwww.
  unfold separators in Hfree.
  apply Forall_cons in Hfree as [Hslash Hfree].
  apply Forall_cons in Hfree as [Hquery Hfree].
  apply Forall_cons in Hfree as [Hfragment Hfree].
  apply Forall_cons in Hfree as [Hport _].
  unfold clean_domain. rewrite Hstrip, Hhttp, Hhttps, Hwww.
  rewrite (first_split_absent (ch "/")), (first_split_absent (ch "?")),
    (first_split_absent (ch "#")) by done.
  by rewrite Hport.
Qed.

(** [clean_domain] is idempotent on the inputs whose cleaned name has no
    outer white space and does not start with [www.]. *)
Lemma clean_domain_idempotent_when (s : str) :
  strip (clean_domain s) = clean_domain s →
  startswith s_www (clean_domain s) = false →
  clean_domain (clean_domain s) = clean_domain s.
Proof. intros. by apply clean_domain_fixed; [apply clean_domain_cleaned|..]. Qed.

Example clean_domain_idempotent_url :
  let s := py "  https://www.Example.cu:8080/a/b?x=1#f " in
  clean_domain (clean_domain s) = clean_domain s.
Proof. apply clean_domain_idempotent_when; reflexivity. Qed.

(** *** Loading *)

Lemma member_spec (x : str) (domains : list str) :
  member x domains = true ↔ x ∈ domains.
Proof. unfold member. apply bool_decide_eq_true. Qed.

Lemma loaded_append (domains : list str) (s : str) :
  loaded domains →
  clean_domain s ≠ [] →
  member (clean_domain s) domains = false →
  loaded (domains ++ [clean_domain s]).
Proof.
  intros [Hnodup Hall] Hne Hnew. split.
  - apply NoDup_app. split; [done|]. split; [|apply NoDup_singleton].
    intros x Hx ->%list_elem_of_singleton.
    apply member_spec in Hx. congruence.
  - apply Forall_app. split; [done|].
    constructor; [|done]. split; [done | apply clean_domain_cleaned].
Qed.

Lemma any_column_cons (key : option str) (value : cell) (items : row)
    (domains : list str) :
  any_column ((key, value) :: items) domains =
    if truthy value && negb (bool_decide (strip (str_of value) = [])) then
      let potential_domain := clean_domain (strip (str_of value)) in
      if contains (ch ".") potential_domain && negb (contains (ch " ") potential_domain)
      then if negb (member potential_domain domains)
           then domains ++ [potential_domain]
           else domains
      else any_column items domains
    else any_column items domains.
Proof. reflexivity. Qed.

Lemma any_column_loaded (items : row) (domains : list str) :
  loaded domains → loaded (any_column items domains).
Proof.
  intros Hdom. induction items as [|[key value] items IH]; [done|].
  rewrite any_column_cons. destruct (truthy value && _); [|done].
  cbv zeta. set (potential_domain := clean_domain _).
  destruct (contains (ch ".") potential_domain && _) eqn:Hdot; [|done].
  destruct (member potential_domain domains) eqn:Hmem; [done|].
  cbn [negb]. apply loaded_append; [done| |done].
  apply andb_true_iff in Hdot as [Hdot _]. intros Hnil.
  fold potential_domain in Hnil. by rewrite Hnil in Hdot.
Qed.

Lemma load_row_loaded (domains : list str) (r : row) :
  loaded domains → loaded (load_row domains r).
Proof.
  intros Hdom. unfold load_row.
  destruct (named_domain domain_columns r) as [d|]; [|by apply any_column_loaded].
  cbv zeta. case_bool_decide as Hne; cbn [negb andb]; [done|].
  destruct (member (clean_domain d) domains) eqn:Hmem; cbn [negb]; [done|].
  by apply loaded_append.
Qed.

Lemma load_rows_loaded (rows : list row) (domains : list str) :
  loaded domains → loaded (fold_left load_row rows domains).
Proof.
  revert domains. induction rows as [|r rows IH]; intros domains Hdom; [done|].
  simpl. by apply IH, load_row_loaded.
Qed.

(** A host added by the scan of the other columns holds a dot and no
    space. *)
Lemma any_column_dotted (items : row) (domains : list str) :
  Forall (λ h, h ∈ domains
               ∨ (contains (ch ".") h = true ∧ contains (ch " ") h = false))
    (any_column items domains).
Proof.
  assert (Forall (λ h, h ∈ domains
            ∨ (contains (ch ".") h = true ∧ contains (ch " ") h = false)) domains)
    as Hold by (apply Forall_forall; by left).
  induction items as [|[key value] items IH]; [done|].
  rewrite any_column_cons. destruct (truthy value && _); [|done].
  cbv zeta. set (potential_domain := clean_domain _).
  destruct (contains (ch ".") potential_domain && _) eqn:Hdot; [|done].
  destruct (member potential_domain domains); [done|]. cbn [negb].
  apply Forall_app. split; [done|]. constructor; [|done]. right.
  apply andb_true_iff in Hdot as [Hdot Hspace].
  by apply negb_true_iff in Hspace.
Qed.

(** C9, as the claim states it: a host read from a recognised column is
    returned although it holds no dot. *)
Lemma load_domains_without_dot :
  ∃ h, h ∈ load_domains (Rows [[(Some (py "Domain"), Text (py "localhost"))]] false)
       ∧ contains (ch ".") h = false.
Proof. exists (py "localhost"). vm_compute. split; [|done]. by apply list_elem_of_here. Qed.

(** C9, amended.  The list [load_domains] returns has no duplicates, and
    every host in it is non-empty, in lower case, without a leading
    scheme and without any of ['/'], ['?'], ['#'] and [':'], so without
    path, query, fragment or port.  A host found by scanning the other
    columns holds a dot and no space; a host read from a recognised
    column is taken as it is cleaned, with or without a dot. *)
Theorem load_domains_hosts (f : csv_file) :
  NoDup (load_domains f)
  ∧ Forall (λ h, h ≠ [] ∧ cleaned h) (load_domains f)
  ∧ (∀ (items : row) (domains : list str),
       Forall (λ h, h ∈ domains
                    ∨ (contains (ch ".") h = true ∧ contains (ch " ") h = false))
         (any_column items domains)).
Proof.
  assert (loaded (load_domains f)) as [Hnodup Hall].
  { assert (loaded []) as Hnil by (split; constructor).
    destruct f as [| |rows raised]; simpl; [done|done|].
    destruct raised; [done|]. by apply load_rows_loaded. }
  split; [done|]. split; [done|]. apply any_column_dotted.
Qed.

(** C10.  [clean_domain] is not idempotent: the prefix [www.] is looked
    for before the name is lower-cased, so the output can still start
    with [www.], which a second pass removes. *)
Theorem clean_domain_not_idempotent :
  let s := py "WWW.Example.cu" in
  clean_domain s = py "www.example.cu"
  ∧ startswith s_www (clean_domain s) = true
  ∧ clean_domain (clean_domain s) = py "example.cu"
  ∧ clean_domain (clean_domain s) ≠ clean_domain s.
Proof. vm_compute. done. Qed.

(** * Further properties *)

(** ** The single request checker *)

Section CheckerMore.

Variable World : Type.
Variable requests_get : str → World → (Response + exn) * World.
Variable now : World → str.

Local Abbreviation check := (check_url World requests_get now).

(** The [url] of a result is the URL that answered: the last one
    requested. *)
Lemma check_url_last (u : str) (w w' : World) (r : ProbeResult) (gets : list str) :
  check u w = (Some r, gets, w') → last gets = Some (url r).
Proof.
  rewrite check_url_eq.
  destruct (requests_get u w) as [[response|e] w1]; cbv beta iota;
    [by intros [= <- <- _]|].
  destruct (is_SSLError e); [|done].
  destruct (startswith s_https u) eqn:Hs; [|done].
  rewrite check_url_no_retry by by apply replace_https_not_https.
  destruct (requests_get (replace s_https s_http u) w1) as [[response|e'] w2];
    cbv beta iota; [|done].
  by intros [= <- <- _].
Qed.

(** When every request fails, [check_url] has no result. *)
Lemma check_url_all_fail (u : str) (w : World) :
  (∀ u w, ∃ e w', requests_get u w = (inr e, w')) →
  (check u w).1.1 = None.
Proof.
  intros Hfail. rewrite check_url_eq.
  destruct (Hfail u w) as (e & w1 & ->). cbv beta iota.
  destruct (is_SSLError e); [|done].
  destruct (startswith s_https u) eqn:Hs; [|done].
  rewrite check_url_no_retry by by apply replace_https_not_https.
  by destruct (Hfail (replace s_https s_http u) w1) as (e' & w2 & ->).
Qed.

(** X1.  When the GET of a URL that starts with [https://] fails with a
    TLS error, [check_url] makes exactly one more request, to
    [url.replace('https://', 'http://')], and returns what that request
    gives: its result, under the rewritten URL, or [None] when it fails
    too, even with another TLS error. *)
Theorem check_url_tls_retry (u : str) (w w1 : World) :
  startswith s_https u = true →
  requests_get u w = (inr SSLError, w1) →
  check u w =
    match requests_get (replace s_https s_http u) w1 with
    | (inl response, w2) =>
        (Some (make_result World now (replace s_https s_http u) response w2),
         [u; replace s_https s_http u], w2)
    | (inr _, w2) => (None, [u; replace s_https s_http u], w2)
    end.
Proof. apply check_url_retries_once. Qed.

(** X2.  A TLS error on a URL that does not start with the lower-case
    [https://] is not retried: [check_url] returns [None] after the one
    request. *)
Theorem check_url_tls_no_retry (u : str) (w w1 : World) :
  startswith s_https u = false →
  requests_get u w = (inr SSLError, w1) →
  check u w = (None, [u], w1).
Proof. intros Hs Hget. by rewrite check_url_no_retry, Hget. Qed.

(** X3.  [check_url] never makes more than two requests: the URL it is
    given, followed or not by the one rewritten URL. *)
Theorem check_url_two_requests (u : str) (w : World) :
  (check u w).1.2 = [u] ∨ (check u w).1.2 = [u; replace s_https s_http u].
Proof. apply check_url_requested. Qed.

(** X4.  The [url] field of a result is the URL that was answered, the
    last one requested, which after a TLS retry is not the URL
    [check_url] was called with. *)
Theorem check_url_result_url (u : str) (w w' : World) (r : ProbeResult)
    (gets : list str) :
  check u w = (Some r, gets, w') → last gets = Some (url r).
Proof. apply check_url_last. Qed.

End CheckerMore.

Lemma check_url_tls_retry_witness :
  check_url unit tls_broken clock (py "https://a.cu/login") tt
  = (Some (make_result unit clock (py "http://a.cu/login")
             (page 200 (py "http://a.cu/login") (py "<title>ok</title>")) tt),
     [py "https://a.cu/login"; py "http://a.cu/login"], tt).
Proof.
  apply (check_url_tls_retry unit tls_broken clock (py "https://a.cu/login") tt tt);
    reflexivity.
Defined.

(** An upper-case scheme is not recognised, and not retried. *)
Lemma check_url_tls_no_retry_witness :
  check_url unit all_tls_error clock (py "HTTPS://a.cu/") tt
  = (None, [py "HTTPS://a.cu/"], tt).
Proof.
  apply (check_url_tls_no_retry unit all_tls_error clock (py "HTTPS://a.cu/") tt tt);
    reflexivity.
Defined.

Lemma check_url_result_url_witness :
  last [py "https://a.cu/"; py "http://a.cu/"] = Some (py "http://a.cu/").
Proof.
  apply (check_url_result_url unit tls_broken clock (py "https://a.cu/") tt tt
           (make_result unit clock (py "http://a.cu/")
              (page 200 (py "http://a.cu/") (py "<title>ok</title>")) tt)).
  reflexivity.
Defined.

(** ** The host prober *)

Section ProberMore.

Variable World : Type.
Variable requests_get : str → World → (Response + exn) * World.
Variable now : World → str.
Variable sleep : World → World.

Local Abbreviation check := (check_url World requests_get now).
Local Abbreviation scan := (path_loop World requests_get now sleep).
Local Abbreviation scan_protocols := (protocol_loop World requests_get now sleep).
Local Abbreviation run := (probe_domain_run World requests_get now sleep).

(** Only the HTTPS pass leaves its loop early: under any other protocol
    every path is attempted. *)
Lemma path_loop_whole (protocol base : str) (ps : list str) (st : ProbeState World) :
  protocol ≠ py "https" →
  attempted _ (scan protocol base ps st) = attempted _ st ++ map (urljoin base) ps.
Proof.
  intros Hp. revert st. induction ps as [|path ps IH]; intros st.
  { simpl. by rewrite app_nil_r. }
  assert (∀ st', attempted _ st' = attempted _ st ++ [urljoin base path] →
    attempted _ (scan protocol base ps st')
    = attempted _ st ++ map (urljoin base) (path :: ps)) as Hnext.
  { intros st' Hst'. rewrite IH, Hst'. simpl. by rewrite <-app_assoc. }
  simpl. destruct (check _ _) as [[[r|] gets] w1]; [|by apply Hnext].
  destruct (status_code r <? 500); [|by apply Hnext].
  rewrite bool_decide_eq_false_2 by done. by apply Hnext.
Qed.

(** When every request fails the loop records nothing. *)
Lemma path_loop_all_fail (protocol base : str) (ps : list str) (st : ProbeState World) :
  (∀ u w, ∃ e w', requests_get u w = (inr e, w')) →
  found_urls _ (scan protocol base ps st) = found_urls _ st.
Proof.
  intros Hfail. revert st. induction ps as [|path ps IH]; intros st; [done|].
  pose proof (check_url_all_fail World requests_get now
                (urljoin base path) (world _ st) Hfail) as Hnone.
  simpl. destruct (check _ _) as [[result gets] w1]. cbn [fst] in Hnone.
  rewrite Hnone. exact (IH _).
Qed.

(** One result at most per attempt, and each under a URL that was
    requested. *)
Lemma path_loop_results (protocol base : str) (ps : list str) (st : ProbeState World) :
  (length (found_urls _ st) ≤ length (attempted _ st))%nat
  ∧ Forall (λ r, url r ∈ requested _ st) (found_urls _ st) →
  (length (found_urls _ (scan protocol base ps st))
   ≤ length (attempted _ (scan protocol base ps st)))%nat
  ∧ Forall (λ r, url r ∈ requested _ (scan protocol base ps st))
      (found_urls _ (scan protocol base ps st)).
Proof.
  revert st. induction ps as [|path ps IH]; intros st [Hlen Hreq]; [done|].
  pose proof (check_url_last World requests_get now
                (urljoin base path) (world _ st)) as Hlast.
  simpl. destruct (check _ _) as [[result gets] w1].
  assert (Forall (λ r, url r ∈ requested _ st ++ gets) (found_urls _ st)) as Hold.
  { eapply Forall_impl; [done|]. intros r Hr. apply elem_of_app. by left. }
  assert (∀ r, result = Some r →
    (length (found_urls _ st ++ [r]) ≤ length (attempted _ st ++ [urljoin base path]))%nat
    ∧ Forall (λ r, url r ∈ requested _ st ++ gets) (found_urls _ st ++ [r])) as Hnew.
  { intros r ->. split; [rewrite !length_app; simpl; lia|].
    apply Forall_app. split; [done|]. constructor; [|done].
    apply elem_of_app. right. specialize (Hlast _ _ _ eq_refl).
    apply last_Some in Hlast as [gets' ->]. apply elem_of_app. right.
    apply list_elem_of_singleton. done. }
  assert ((length (found_urls _ st) ≤ length (attempted _ st ++ [urljoin base path]))%nat)
    as Hlen' by (rewrite length_app; simpl; lia).
  destruct result as [r|]; [|by apply IH].
  destruct (status_code r <? 500); [|by apply IH].
  destruct (_ && _); [by apply Hnew | by apply IH, Hnew].
Qed.

(** X5.  For a URL that [probe_domain] builds, the retry after a TLS
    error is the HTTP candidate of the same host and path, and it is the
    only other request made for that path in the HTTPS pass. *)
Theorem probe_candidate_retry (d path : str) (w w1 : World) :
  let https_url := urljoin (py "https" ++ py "://" ++ d) path in
  let http_url := urljoin (py "http" ++ py "://" ++ d) path in
  path ∈ paths →
  requests_get https_url w = (inr SSLError, w1) →
  check https_url w =
    match requests_get http_url w1 with
    | (inl response, w2) =>
        (Some (make_result World now http_url response w2), [https_url; http_url], w2)
    | (inr _, w2) => (None, [https_url; http_url], w2)
    end.
Proof. apply check_candidate_retry. Qed.

(** X6.  On a host whose authority [urljoin] takes as it is, when the
    HTTPS pass records nothing, [probe_domain] attempts every path over
    HTTPS and then every path over HTTP, in the order of the path list:
    the HTTP pass has no early exit, not even on a 200.  (On another
    host [urljoin] can raise, and then nothing is attempted.) *)
Theorem https_nothing_then_http_all (d : str) (w : World) :
  let https_base := py "https" ++ py "://" ++ d in
  let http_base := py "http" ++ py "://" ++ d in
  plain_netloc (netloc https_base) = true →
  found_urls _ (scan (py "https") https_base paths (start World w)) = [] →
  attempted _ (run d w)
  = map (urljoin https_base) paths ++ map (urljoin http_base) paths.
Proof.
  intros https_base http_base _ Hnone.
  unfold probe_domain_run. rewrite !protocol_loop_cons. cbv zeta.
  fold https_base http_base.
  set (st1 := scan (py "https") https_base paths (start World w)) in *.
  rewrite Hnone. cbn [bool_decide negb andb].
  rewrite (bool_decide_eq_true_2 (@nil ProbeResult = [])) by done. cbn [negb andb].
  assert (attempted _ st1 = map (urljoin https_base) paths) as Hatt.
  { destruct (path_loop_app World requests_get now sleep
                (py "https") https_base paths [] (start World w)) as [_ Hatt].
    - fold st1. by rewrite Hnone.
    - done. }
  set (st2 := scan (py "http") http_base paths st1).
  assert (attempted _ st2
          = map (urljoin https_base) paths ++ map (urljoin http_base) paths) as Hatt2.
  { unfold st2. rewrite path_loop_whole by done. by rewrite Hatt. }
  rewrite protocol_loop_cons. cbv zeta. fold http_base st2.
  rewrite (bool_decide_eq_false_2 (py "http" = py "https")) by done.
  rewrite andb_false_r. exact Hatt2.
Qed.

(** X7.  On a host whose authority [urljoin] takes as it is and where
    every request fails, [probe_domain] returns the empty list.  (On
    another host [urljoin] can raise, and [probe_domain] with it.) *)
Theorem probe_domain_unreachable (d : str) (w : World) :
  plain_netloc (netloc (py "https" ++ py "://" ++ d)) = true →
  (∀ u w, ∃ e w', requests_get u w = (inr e, w')) →
  probe_domain World requests_get now sleep d w = [].
Proof.
  intros _ Hfail. unfold probe_domain, probe_domain_run.
  assert (∀ protocols st, found_urls _ (scan_protocols protocols d st) = found_urls _ st)
    as Hloop.
  { induction protocols as [|protocol protocols IH]; intros st; [done|].
    rewrite protocol_loop_cons. cbv zeta.
    pose proof (path_loop_all_fail protocol (protocol ++ py "://" ++ d) paths st Hfail)
      as Hsame.
    destruct (_ && _); [done|]. by rewrite IH. }
  by rewrite Hloop.
Qed.

(** X8.  A run makes at most one attempt per path and protocol, 82 in
    all, and at most two requests per attempt. *)
Theorem probe_domain_bounds (d : str) (w : World) :
  (length (attempted _ (run d w)) ≤ 2 * length paths)%nat
  ∧ (length (requested _ (run d w)) ≤ 2 * length (attempted _ (run d w)))%nat.
Proof.
  split.
  - assert (∀ protocols st,
      (length (attempted _ (scan_protocols protocols d st))
       ≤ length (attempted _ st) + length protocols * length paths)%nat) as Hloop.
    { induction protocols as [|protocol protocols IH]; intros st;
        [unfold protocol_loop; lia|].
      rewrite protocol_loop_cons. cbv zeta.
      destruct (path_loop_attempted World requests_get now sleep protocol
                  (protocol ++ py "://" ++ d) paths st) as [k Hk].
      assert (length (attempted _ (scan protocol (protocol ++ py "://" ++ d) paths st))
              ≤ length (attempted _ st) + length paths)%nat as Hone.
      { rewrite Hk, length_app, length_map, length_take. lia. }
      destruct (_ && _); [cbn [length]; lia|].
      etrans; [apply IH|]. cbn [length]. lia. }
    unfold probe_domain_run. etrans; [apply Hloop|].
    cbn [length start attempted]. lia.
  - destruct (probe_domain_grouped World requests_get now sleep d w)
      as (groups & -> & Hgroups).
    induction Hgroups as [|u gets us groups Hgroup _ IH]; [done|].
    simpl. rewrite length_app.
    destruct Hgroup as [-> | ->]; simpl; lia.
Qed.

(** X9.  The requests of a run are those of its attempts, in order: each
    candidate URL, followed or not by its one retry. *)
Theorem probe_domain_requests (d : str) (w : World) :
  ∃ groups,
    requested _ (run d w) = concat groups
    ∧ Forall2 (λ u gets, gets = [u] ∨ gets = [u; replace s_https s_http u])
        (attempted _ (run d w)) groups.
Proof. apply probe_domain_grouped. Qed.

(** X10.  [probe_domain] records at most one result per attempt, and the
    [url] of every result is a URL that was requested in the run. *)
Theorem probe_domain_results (d : str) (w : World) :
  (length (probe_domain World requests_get now sleep d w)
   ≤ length (attempted _ (run d w)))%nat
  ∧ Forall (λ r, url r ∈ requested _ (run d w))
      (probe_domain World requests_get now sleep d w).
Proof.
  unfold probe_domain, probe_domain_run.
  assert (∀ protocols st,
    (length (found_urls _ st) ≤ length (attempted _ st))%nat
    ∧ Forall (λ r, url r ∈ requested _ st) (found_urls _ st) →
    (length (found_urls _ (scan_protocols protocols d st))
     ≤ length (attempted _ (scan_protocols protocols d st)))%nat
    ∧ Forall (λ r, url r ∈ requested _ (scan_protocols protocols d st))
        (found_urls _ (scan_protocols protocols d st))) as Hloop.
  { induction protocols as [|protocol protocols IH]; intros st Hst; [done|].
    rewrite protocol_loop_cons. cbv zeta.
    pose proof (path_loop_results protocol (protocol ++ py "://" ++ d) paths st Hst).
    destruct (_ && _); [done | by apply IH]. }
  apply Hloop. split; [done | constructor].
Qed.

End ProberMore.

Lemma probe_candidate_retry_witness :
  check_url unit tls_broken clock (py "https://a.cu/login") tt
  = (Some (make_result unit clock (py "http://a.cu/login")
             (page 200 (py "http://a.cu/login") (py "<title>ok</title>")) tt),
     [py "https://a.cu/login"; py "http://a.cu/login"], tt).
Proof.
  apply (probe_candidate_retry unit tls_broken clock (py "a.cu") (py "/login") tt tt).
  - apply (bool_decide_unpack _). by vm_compute.
  - reflexivity.
Defined.

(** A host that answers over HTTP only: all 82 candidates are attempted,
    and each of the 41 HTTP answers is recorded. *)
Lemma https_nothing_then_http_all_witness :
  attempted _ (probe_domain_run unit http_only clock no_sleep (py "a.cu") tt)
  = map (urljoin (py "https" ++ py "://" ++ py "a.cu")) paths
    ++ map (urljoin (py "http" ++ py "://" ++ py "a.cu")) paths.
Proof.
  apply (https_nothing_then_http_all unit http_only clock no_sleep (py "a.cu") tt).
  - reflexivity.
  - by vm_compute.
Defined.

Example http_pass_records_all :
  length (probe_domain unit http_only clock no_sleep (py "a.cu") tt) = 41%nat.
Proof. by vm_compute. Qed.

Lemma probe_domain_unreachable_witness :
  probe_domain unit all_timeout clock no_sleep (py "a.cu") tt = [].
Proof.
  apply (probe_domain_unreachable unit all_timeout clock no_sleep (py "a.cu") tt).
  - reflexivity.
  - intros u w. by exists Timeout, w.
Defined.

(** ** White space *)

Lemma lstrip_spec (s : str) :
  ∃ sp, s = sp ++ lstrip s ∧ Forall (λ c, isspace c = true) sp.
Proof.
  induction s as [|c s (sp & Hs & Hsp)]; [by exists []|].
  cbn [lstrip]. destruct (isspace c) eqn:Hc.
  - exists (c :: sp). split; [by rewrite Hs at 1 | by constructor].
  - by exists [].
Qed.

Lemma lstrip_head (s : str) :
  from_option (λ c, isspace c = false) True (head (lstrip s)).
Proof.
  induction s as [|c s IH]; [done|].
  cbn [lstrip]. by destruct (isspace c) eqn:Hc.
Qed.

Lemma lstrip_all_space (s : str) :
  Forall (λ c, isspace c = true) s → lstrip s = [].
Proof. induction 1 as [|c s Hc _ IH]; [done|]. cbn [lstrip]. by rewrite Hc. Qed.

Lemma lstrip_app (a b : str) :
  lstrip b = b → lstrip (a ++ b) = lstrip a ++ b.
Proof.
  intros Hb. induction a as [|c a IH]; [done|].
  cbn [lstrip app]. by destruct (isspace c).
Qed.

Lemma rstrip_spec (s : str) :
  ∃ sp, s = rstrip s ++ sp ∧ Forall (λ c, isspace c = true) sp.
Proof.
  destruct (lstrip_spec (rev s)) as (sp & Hs & Hsp).
  exists (rev sp). split; [|by apply Forall_rev].
  unfold rstrip. by rewrite <-rev_app_distr, <-Hs, rev_involutive.
Qed.

(** [strip] returns the empty string on white space only, and on
    nothing else. *)
Lemma strip_nil_iff (s : str) :
  strip s = [] ↔ Forall (λ c, isspace c = true) s.
Proof.
  unfold strip. split.
  - intros Hnil.
    destruct (lstrip_spec s) as (sp1 & Hs & Hsp1).
    destruct (rstrip_spec (lstrip s)) as (sp2 & Hl & Hsp2).
    rewrite Hnil in Hl. rewrite Hs, Hl. by apply Forall_app.
  - intros Hall. by rewrite lstrip_all_space.
Qed.

(** What [strip] returns does not start with white space. *)
Lemma strip_head (s : str) :
  from_option (λ c, isspace c = false) True (head (strip s)).
Proof.
  unfold strip.
  destruct (rstrip_spec (lstrip s)) as (sp & Hl & _).
  pose proof (lstrip_head s) as Hhead.
  destruct (rstrip (lstrip s)) as [|c t]; [done|].
  by rewrite Hl in Hhead.
Qed.

(** White space at the end is removed up to the last other character. *)
Lemma rstrip_app (p rest : str) (c : char) :
  isspace c = false → rstrip ((p ++ [c]) ++ rest) = (p ++ [c]) ++ rstrip rest.
Proof.
  intros Hc. unfold rstrip.
  rewrite rev_app_distr, lstrip_app, rev_app_distr, rev_involutive; [done|].
  rewrite rev_app_distr. cbn [rev app lstrip]. by rewrite Hc.
Qed.

(** ** Title extraction *)

(** X11.  The title [extract_title] returns has at most 200 characters
    and does not start with white space. *)
Theorem extract_title_shape (html : str) :
  (length (extract_title html) ≤ 200)%nat
  ∧ from_option (λ c, isspace c = false) True (head (extract_title html)).
Proof.
  split; [apply extract_title_length|].
  unfold extract_title. destruct (negb _); [|done]. destruct (negb _); [|done].
  pose proof (strip_head (slice html (find s_title_open (lower html) 0 + 7)
                            (find s_title_close (lower html)
                               (find s_title_open (lower html) 0)))) as Hhead.
  unfold slice_to, slice_index. cbn [Z.ltb Z.compare].
  destruct (strip _) as [|c t]; [by rewrite take_nil|].
  destruct (Z.to_nat _) eqn:Hn; [|done].
  unfold len in Hn. cbn [length] in Hn. lia.
Qed.

(** X12.  On a page whose text up to the end of the title holds no
    U+0130, [extract_title] returns the text between the first
    [<title>], in any case, and the first [</title>] after it, stripped
    and cut to 200 characters. *)
Theorem extract_title_between_tags (pre o mid c post : str) :
  plain (pre ++ o ++ mid) →
  lower o = s_title_open →
  lower c = s_title_close →
  occurrence s_title_open (lower (pre ++ o)) = Some (length pre) →
  occurrence s_title_close (lower (mid ++ c)) = Some (length mid) →
  extract_title (pre ++ o ++ mid ++ c ++ post) = slice_to (strip mid) 200.
Proof. apply extract_title_plain. Qed.

(** X13.  A page without [<title>], or without [</title>] at or after
    the first [<title>], has the empty title; a [</title>] in front of
    the opening tag does not count. *)
Theorem extract_title_missing_tag (html : str) :
  occurrence s_title_open (lower html) = None
  ∨ (∃ i, occurrence s_title_open (lower html) = Some i
          ∧ occurrence s_title_close (drop i (lower html)) = None) →
  extract_title html = [].
Proof.
  intros [Hnone | (i & Hopen & Hclose)]; [by apply extract_title_absent|].
  unfold extract_title.
  rewrite (find_from _ _ 0) by lia. rewrite drop_0, Hopen. cbn [Nat.add].
  rewrite index_found. cbn [negb].
  rewrite find_from, Hclose; [done|].
  apply occurrence_bound in Hopen. lia.
Qed.

Lemma extract_title_between_tags_witness :
  extract_title (py "<html><head>" ++ py "<Title>" ++ py "  Portal del Ciudadano "
                 ++ py "</TITLE>" ++ py "</head>")
  = slice_to (strip (py "  Portal del Ciudadano ")) 200.
Proof.
  apply extract_title_between_tags; [|reflexivity..].
  unfold plain. apply Forall_forall. intros x Hx ->. revert Hx.
  apply (bool_decide_unpack (304%N ∉ _)). by vm_compute.
Defined.

(** A closing tag in front of the only opening tag: no title. *)
Lemma extract_title_missing_tag_witness :
  extract_title (py "</title><title>abierto") = [].
Proof.
  apply extract_title_missing_tag. right. exists 8%nat. by split.
Defined.

(** ** Domain normalisation *)

(** X14.  Whatever the input, the name [clean_domain] returns is in
    lower case, holds none of ['/'], ['?'], ['#'] and [':'], and does not
    start with [http://] or [https://]. *)
Theorem clean_domain_output (s : str) :
  lower (clean_domain s) = clean_domain s
  ∧ Forall (λ c, contains c (clean_domain s) = false) [ch "/"; ch "?"; ch "#"; ch ":"]
  ∧ startswith s_http (clean_domain s) = false
  ∧ startswith s_https (clean_domain s) = false.
Proof. apply clean_domain_cleaned. Qed.

(** X15.  A host name that is already normal (lower case, no separator,
    no white space around it, no [www.] in front) is returned unchanged. *)
Theorem clean_domain_keeps_host (t : str) :
  lower t = t →
  Forall (λ c, contains c t = false) [ch "/"; ch "?"; ch "#"; ch ":"] →
  strip t = t →
  startswith s_www t = false →
  clean_domain t = t.
Proof.
  intros Hlower Hfree Hstrip Hwww. apply clean_domain_fixed; [|done..].
  assert (contains (ch ":") t = false) as Hcolon.
  { eapply Forall_forall in Hfree; [done|]. set_solver. }
  split; [done|]. split; [done|]. split.
  - destruct (startswith s_http t) eqn:Hs; [|done].
    by rewrite (startswith_contains s_http _ (ch ":")) in Hcolon.
  - destruct (startswith s_https t) eqn:Hs; [|done].
    by rewrite (startswith_contains s_https _ (ch ":")) in Hcolon.
Qed.

(** X16.  The scheme test is case-sensitive: a URL written with the
    upper-case scheme [HTTP://] is cut at its first slash and colon, and
    what [clean_domain] returns is the word [http], whatever the host. *)
Theorem clean_domain_upper_scheme (rest : str) :
  clean_domain (py "HTTP://" ++ rest) = py "http".
Proof.
  unfold clean_domain.
  assert (strip (py "HTTP://" ++ rest) = py "HTTP://" ++ rstrip rest) as ->.
  { unfold strip. change (lstrip (py "HTTP://" ++ rest)) with (py "HTTP://" ++ rest).
    apply (rstrip_app (py "HTTP:/") rest (ch "/")). reflexivity. }
  reflexivity.
Qed.

Lemma clean_domain_keeps_host_witness :
  clean_domain (py "mitrans.gob.cu") = py "mitrans.gob.cu".
Proof.
  apply clean_domain_keeps_host; [reflexivity| |reflexivity..].
  by repeat constructor.
Defined.

(** ** Loading *)

Lemma any_column_grows (items : row) (domains : list str) :
  ∃ tail, any_column items domains = domains ++ tail ∧ (length tail ≤ 1)%nat.
Proof.
  assert (∃ tail, domains = domains ++ tail ∧ (length tail ≤ 1)%nat) as Hsame.
  { exists []. rewrite app_nil_r. split; [done | simpl; lia]. }
  induction items as [|[key value] items IH]; [done|].
  rewrite any_column_cons. destruct (truthy value && _); [|done].
  cbv zeta. destruct (contains (ch ".") _ && _); [|done].
  destruct (negb _); [|done]. by eexists [_].
Qed.

Lemma load_row_grows (domains : list str) (r : row) :
  ∃ tail, load_row domains r = domains ++ tail ∧ (length tail ≤ 1)%nat.
Proof.
  unfold load_row.
  destruct (named_domain domain_columns r) as [d|]; [|apply any_column_grows].
  cbv zeta. destruct (_ && _); [by eexists [_]|].
  exists []. rewrite app_nil_r. split; [done | simpl; lia].
Qed.

Lemma load_rows_grow (rows : list row) (domains : list str) :
  ∃ tail, fold_left load_row rows domains = domains ++ tail
          ∧ (length tail ≤ length rows)%nat.
Proof.
  revert domains. induction rows as [|r rows IH]; intros domains.
  { exists []. by rewrite app_nil_r. }
  cbn [fold_left]. destruct (load_row_grows domains r) as (t1 & -> & H1).
  destruct (IH (domains ++ t1)) as (t2 & -> & H2).
  exists (t1 ++ t2). rewrite app_assoc, length_app. split; [done|]. simpl. lia.
Qed.

(** X17.  Every row adds at most one host, at the end of the list: the
    list has at most as many hosts as the file has rows, and the hosts
    found in the first rows keep their places when more rows follow. *)
Theorem load_domains_row_by_row (rows more : list row) (raised : bool) :
  (length (load_domains (Rows rows raised)) ≤ length rows)%nat
  ∧ load_domains (Rows rows false) `prefix_of` load_domains (Rows (rows ++ more) false).
Proof.
  split.
  - simpl. destruct raised; [simpl; lia|].
    destruct (load_rows_grow rows []) as (tail & -> & Hlen). done.
  - simpl. rewrite fold_left_app.
    destruct (load_rows_grow more (fold_left load_row rows [])) as (tail & -> & _).
    by apply prefix_app_r.
Qed.

(** ** Validating the input file *)

Lemma slice_to_take (s : str) (n : nat) : slice_to s (Z.of_nat n) = take n s.
Proof.
  unfold slice_to, slice_index, len.
  destruct (Z.ltb_spec (Z.of_nat n) 0) as [Hneg|_]; [lia|].
  destruct (decide (n ≤ length s)%nat).
  - by rewrite Z.min_l, Nat2Z.id by lia.
  - rewrite Z.min_r, Nat2Z.id by lia. by rewrite !take_ge by lia.
Qed.

Lemma not_all_space (s : str) :
  ¬ Forall (λ c, isspace c = true) s ↔ Exists (λ c, isspace c = false) s.
Proof.
  induction s as [|c s IH].
  - split; [intros H; by destruct H | by inversion 1].
  - rewrite Forall_cons, Exists_cons, <-IH.
    destruct (isspace c); split.
    + intros Hn. right. intros Hall. by apply Hn.
    + intros [?|Hn] [_ Hall]; [done | by apply Hn].
    + by left.
    + by intros _ [? _].
Qed.

(** X18.  [validate_csv_file] accepts a path exactly when its name ends
    in [.csv], in any case, the file exists and can be read, and one of
    the first 1024 characters read from it is not white space, a CR LF
    being read as one character. *)
Theorem validate_csv_file_accepts (filepath : str) (file : file_state) :
  validate_csv_file filepath file = true
  ↔ endswith (py ".csv") (lower filepath) = true
    ∧ ∃ text, file = Content text
              ∧ Exists (λ c, isspace c = false)
                  (take 1024 (universal_newlines text)).
Proof.
  unfold validate_csv_file.
  destruct (endswith (py ".csv") (lower filepath)); cbn [negb];
    [|by split; [|intros [? _]]].
  destruct file as [| |text];
    [by split; [|intros (_ & ? & ? & _)]..|]. cbv zeta.
  set (read := universal_newlines text).
  change (slice_to read 1024) with (slice_to read (Z.of_nat 1024)).
  rewrite slice_to_take.
  destruct (len (strip (take 1024 read)) =? 0) eqn:Hlen.
  - apply Z.eqb_eq in Hlen. unfold len in Hlen.
    assert (strip (take 1024 read) = []) as Hnil by (apply nil_length_inv; lia).
    split; [done|]. intros (_ & text' & [= <-] & Hsome). fold read in Hsome.
    apply not_all_space in Hsome. by apply strip_nil_iff in Hnil.
  - apply Z.eqb_neq in Hlen. split; [|done]. intros _. split; [done|].
    exists text. split; [done|]. fold read. apply not_all_space. intros Hall.
    apply strip_nil_iff in Hall. by rewrite Hall in Hlen.
Qed.

(** 1024 blanks in front of the header: the file is taken for empty. *)
Example validate_csv_file_blank_start :
  validate_csv_file (py "Dominios.CSV") (Content (replicate 1024 (ch " ") ++ py "Domain"))
  = false.
Proof. by vm_compute. Qed.

(** 600 empty lines that end in CR LF are read as 600 characters, and
    the header after them is within the sample. *)
Example validate_csv_file_crlf :
  validate_csv_file (py "dominios.csv")
    (Content (concat (replicate 600 [13; 10]%N) ++ py "Domain"))
  = true.
Proof. by vm_compute. Qed.

(** ** The dispatcher *)

(** X19.  What [probe_all_domains] collects does not depend on the order
    in which the futures complete: two orders that yield the same futures
    give the same results and the same error lines, up to their order. *)
Theorem probe_all_domains_any_order (domains : list str) (result : nat → task_end)
    (completed1 completed2 : list nat) (st : Dispatch) :
  completed1 ≡ₚ completed2 →
  discovered_urls (probe_all_domains domains result completed1 st)
  ≡ₚ discovered_urls (probe_all_domains domains result completed2 st)
  ∧ errors (probe_all_domains domains result completed1 st)
    ≡ₚ errors (probe_all_domains domains result completed2 st).
Proof.
  intros Hperm. unfold probe_all_domains.
  destruct (fold_collect (submit_all domains) result completed1 st) as [-> ->].
  destruct (fold_collect (submit_all domains) result completed2 st) as [-> ->].
  by rewrite Hperm.
Qed.

(** X20.  When the tasks are calls of [probe_domain], no result with a
    status of 500 or more reaches [self.discovered_urls]. *)
Theorem discovered_urls_below_500 (World : Type)
    (requests_get : str → World → (Response + exn) * World)
    (now : World → str) (sleep : World → World)
    (domains : list str) (result : nat → task_end) (completed : list nat)
    (st : Dispatch) :
  (∀ i, ∃ d w, result i = Returned (probe_domain World requests_get now sleep d w)
               ∨ ∃ e, result i = Raised e) →
  Forall (λ r, status_code r < 500) (discovered_urls st) →
  Forall (λ r, status_code r < 500)
    (discovered_urls (probe_all_domains domains result completed st)).
Proof.
  intros Htasks Hst. unfold probe_all_domains.
  destruct (fold_collect (submit_all domains) result completed st) as [-> _].
  apply Forall_app. split; [done|].
  apply Forall_flat_map, Forall_forall. intros i _.
  destruct (Htasks i) as (d & w & [-> | [e ->]]); [|by constructor].
  unfold returned, probe_domain, probe_domain_run.
  by apply protocol_loop_below_500.
Qed.

Lemma probe_all_domains_any_order_witness :
  let found := make_result unit clock (py "https://a.cu/")
                 (page 200 (py "https://a.cu/") []) tt in
  let result := λ i : nat,
    match i with 0%nat => Returned [found] | _ => Raised (py "boom") end in
  let st := {| discovered_urls := []; errors := [] |} in
  discovered_urls (probe_all_domains [py "a.cu"; py "b.cu"] result [0; 1]%nat st)
  ≡ₚ discovered_urls (probe_all_domains [py "a.cu"; py "b.cu"] result [1; 0]%nat st)
  ∧ errors (probe_all_domains [py "a.cu"; py "b.cu"] result [0; 1]%nat st)
    ≡ₚ errors (probe_all_domains [py "a.cu"; py "b.cu"] result [1; 0]%nat st).
Proof.
  intros found result st.
  apply (probe_all_domains_any_order [py "a.cu"; py "b.cu"] result
           [0; 1]%nat [1; 0]%nat st).
  apply perm_swap.
Defined.

Lemma discovered_urls_below_500_witness :
  let result := λ i : nat,
    match i with
    | 0%nat => Returned (probe_domain unit one_page clock no_sleep (py "a.cu") tt)
    | _ => Raised (py "boom")
    end in
  Forall (λ r, status_code r < 500)
    (discovered_urls
       (probe_all_domains [py "a.cu"; py "b.cu"] result [1; 0]%nat
          {| discovered_urls := []; errors := [] |})).
Proof.
  intros result.
  apply (discovered_urls_below_500 unit one_page clock no_sleep).
  - intros [|i]; exists (py "a.cu"), tt; [by left | right; by exists (py "boom")].
  - constructor.
Defined.

(** ** The summary *)

Section Counting.

Context `{Countable K} (P : K → Prop) `{∀ k, Decision (P k)}.

Lemma counted_insert (k : K) (v : nat) (d : gmap K nat) :
  d !! k = None →
  counted P (<[k := v]> d) = ((if decide (P k) then v else 0) + counted P d)%nat.
Proof.
  intros Hk. unfold counted. by rewrite map_to_list_insert.
Qed.

(** Counting one more element under [k] adds one to the sum when [k] has
    [P], and nothing otherwise. *)
Lemma counted_count_up (k : K) (d : gmap K nat) :
  counted P (count_up k d)
  = (counted P d + if decide (P k) then 1 else 0)%nat.
Proof.
  unfold count_up. case_bool_decide as Hk.
  - rewrite alter_insert_eq, counted_insert by done.
    destruct (decide (P k)); simpl; lia.
  - destruct (d !! k) as [n|] eqn:Hn; [|done].
    rewrite <-(insert_delete_id d k n) by done.
    rewrite alter_insert_eq, !counted_insert by apply lookup_delete_eq.
    destruct (decide (P k)); lia.
Qed.

(** The keys with [P] are summed as [counted] sums them. *)
Lemma counted_keys (d : gmap K nat) :
  sum_list_with (λ k, default 0%nat (d !! k)) (filter P (map_to_list d).*1)
  = counted P d.
Proof.
  unfold counted.
  assert (Forall (λ kv, d !! kv.1 = Some kv.2) (map_to_list d)) as Hall.
  { apply Forall_forall. intros [k v]. apply elem_of_map_to_list. }
  induction Hall as [|[k v] l Hkv _ IH]; [done|].
  rewrite fmap_cons, filter_cons. cbn [fst snd sum_list_with] in *.
  destruct (decide (P k)); [|done].
  cbn [sum_list_with]. by rewrite Hkv, IH.
Qed.

End Counting.

(** Each table of the summary holds, under the keys with [P], as many
    counts as there are results filed under such a key. *)
Lemma summary_counted (l : list ProbeResult) :
  let tables := fold_left summarize_one l (∅, ∅) in
  (∀ (P : str → Prop) (HP : ∀ k, Decision (P k)),
     counted P tables.1 = length (filter (λ r, P (domain r)) l))
  ∧ (∀ (P : Z → Prop) (HP : ∀ k, Decision (P k)),
       counted P tables.2 = length (filter (λ r, P (status_code r)) l)).
Proof.
  induction l as [|x l IH] using rev_ind; simpl.
  { split; intros; unfold counted; by rewrite map_to_list_empty. }
  rewrite fold_left_app. simpl. destruct IH as [IHd IHs].
  split; intros P HP; rewrite counted_count_up, filter_app, length_app.
  - rewrite IHd, filter_cons, filter_nil.
    by destruct (decide (P (domain x))).
  - rewrite IHs, filter_cons, filter_nil.
    by destruct (decide (P (status_code x))).
Qed.

Lemma filter_everything {A} (l : list A) : filter (λ _, True) l = l.
Proof.
  induction l as [|x l IH]; [done|]. rewrite filter_cons. cbn. by rewrite IH.
Qed.

Lemma counted_all `{Countable K} (d : gmap K nat) :
  counted (λ _, True) d = sum_list (map_to_list d).*2.
Proof.
  unfold counted. induction (map_to_list d) as [|[k v] l IH]; [done|].
  cbn [sum_list_with fmap list_fmap snd]. by rewrite IH.
Qed.

(** X21.  The counts of each summary table add up to the number of
    results: every result is counted once under its host and once under
    its status code. *)
Theorem summary_totals (discovered : list ProbeResult)
    (hosts : gmap str nat) (statuses : gmap Z nat) :
  generate_summary_report discovered = Some (hosts, statuses) →
  sum_list (map_to_list hosts).*2 = length discovered
  ∧ sum_list (map_to_list statuses).*2 = length discovered.
Proof.
  unfold generate_summary_report. case_bool_decide; [done|]. intros [= Htables].
  destruct (summary_counted discovered) as [Hd Hs]. cbv zeta in Hd, Hs.
  rewrite Htables in Hd, Hs. cbn [fst snd] in Hd, Hs.
  by rewrite <-!counted_all, Hd, Hs, !filter_everything.
Qed.

Lemma entry_Some (n m : nat) : entry n = Some m → n = m ∧ (1 ≤ m)%nat.
Proof. destruct n; [done|]. intros [= <-]. split; [done | lia]. Qed.

(** X22.  The number of successful responses the quick summary prints
    is the number of results with a status from 200 to 399; the line is
    left out when there is none. *)
Theorem successful_count_counts (discovered : list ProbeResult)
    (hosts : gmap str nat) (statuses : gmap Z nat) :
  generate_summary_report discovered = Some (hosts, statuses) →
  successful_count statuses
  = entry (length (filter (λ r, 200 ≤ status_code r < 400) discovered)).
Proof.
  unfold generate_summary_report. case_bool_decide; [done|]. intros [= Htables].
  destruct (summary_counted discovered) as [_ Hs].
  destruct (summary_tables discovered) as [_ Hentry].
  cbv zeta in Hs, Hentry. rewrite Htables in Hs, Hentry. cbn [fst snd] in Hs, Hentry.
  assert (length (filter (λ r, 200 ≤ status_code r < 400) discovered)
          = counted (λ code, 200 ≤ code < 400) statuses) as ->
    by (symmetry; apply Hs).
  rewrite <-counted_keys. unfold successful_count, successful_codes.
  case_bool_decide as Hcodes; [by rewrite Hcodes|].
  destruct (filter _ _) as [|code codes] eqn:Hfilter; [done|].
  assert (code ∈ filter (λ code, 200 ≤ code < 400) (map_to_list statuses).*1)
    as Hcode by (rewrite Hfilter; apply list_elem_of_here).
  apply list_elem_of_filter in Hcode as [_ Hcode].
  apply list_elem_of_fmap in Hcode as ([code' v] & -> & Hkv).
  apply elem_of_map_to_list in Hkv. cbn [fst] in *.
  pose proof Hkv as Hv. rewrite Hentry in Hv. apply entry_Some in Hv as [_ Hv].
  cbn [sum_list_with]. rewrite Hkv. cbn [default from_option].
  by destruct v; [lia|].
Qed.

(** X23.  The quick summary's largest count is the number of results of
    some host, it is at least one, and no host has more results. *)
Theorem most_urls_is_maximum (discovered : list ProbeResult)
    (hosts : gmap str nat) (statuses : gmap Z nat) :
  generate_summary_report discovered = Some (hosts, statuses) →
  (1 ≤ most_urls hosts)%nat
  ∧ (∃ h, tally domain h discovered = most_urls hosts)
  ∧ (∀ h, (tally domain h discovered ≤ most_urls hosts)%nat).
Proof.
  unfold generate_summary_report. case_bool_decide as Hne; [done|]. intros [= Htables].
  destruct (summary_tables discovered) as [Hentry _].
  cbv zeta in Hentry. rewrite Htables in Hentry. cbn [fst] in Hentry.
  unfold most_urls.
  assert (∀ h, (tally domain h discovered ≤ max_list (map_to_list hosts).*2)%nat)
    as Hmax.
  { intros h. destruct (tally domain h discovered) as [|n] eqn:Hn; [lia|].
    apply max_list_elem_of_le.
    apply (list_elem_of_fmap_2' snd _ (h, S n)); [|done].
    apply elem_of_map_to_list. by rewrite Hentry, Hn. }
  destruct discovered as [|r rest]; [done|].
  assert (1 ≤ tally domain (domain r) (r :: rest))%nat as Hone.
  { unfold tally. rewrite filter_cons. destruct (decide _); [simpl; lia|done]. }
  assert ((map_to_list hosts).*2 ≠ []) as Hsome.
  { intros Hnil. specialize (Hmax (domain r)). rewrite Hnil in Hmax. simpl in Hmax. lia. }
  split; [specialize (Hmax (domain r)); lia|]. split; [|done].
  apply max_list_elem_of in Hsome.
  apply list_elem_of_fmap in Hsome as ([h v] & Hv & Hkv). cbn [snd] in Hv.
  apply elem_of_map_to_list in Hkv. rewrite Hentry in Hkv.
  apply entry_Some in Hkv as [Hkv _]. exists h. by rewrite Hkv, Hv.
Qed.

Lemma summary_totals_witness :
  let tables := fold_left summarize_one three_results (∅, ∅) in
  sum_list (map_to_list tables.1).*2 = length three_results
  ∧ sum_list (map_to_list tables.2).*2 = length three_results.
Proof.
  intros tables.
  apply (summary_totals three_results tables.1 tables.2). reflexivity.
Defined.

Lemma successful_count_counts_witness :
  successful_count (fold_left summarize_one three_results (∅, ∅)).2
  = entry (length (filter (λ r, 200 ≤ status_code r < 400) three_results)).
Proof.
  apply (successful_count_counts three_results
           (fold_left summarize_one three_results (∅, ∅)).1).
  reflexivity.
Defined.

Example successful_count_three :
  successful_count (fold_left summarize_one three_results (∅, ∅)).2 = Some 2%nat.
Proof. by vm_compute. Qed.

Lemma most_urls_is_maximum_witness :
  let hosts := (fold_left summarize_one three_results (∅, ∅)).1 in
  (1 ≤ most_urls hosts)%nat
  ∧ (∃ h, tally domain h three_results = most_urls hosts)
  ∧ (∀ h, (tally domain h three_results ≤ most_urls hosts)%nat).
Proof.
  intros hosts.
  apply (most_urls_is_maximum three_results hosts
           (fold_left summarize_one three_results (∅, ∅)).2).
  reflexivity.
Defined.

(** ** Choosing the input file *)

(** X24.  [select_csv_file] returns a file exactly when the answer, or
    [1] for an empty answer, is a number from 1 to the number of files
    listed, and then it is the file at that place in the list: 0 and
    negative numbers select nothing, although Python would index with
    them from the end. *)
Theorem select_csv_file_picks (int : str → option Z) (csv_files : list str)
    (answer f : str) :
  select_csv_file int csv_files answer = Some f
  ↔ ∃ n, int (if bool_decide (strip answer = []) then py "1" else strip answer)
           = Some n
         ∧ 1 ≤ n ≤ Z.of_nat (length csv_files)
         ∧ csv_files !! Z.to_nat (n - 1) = Some f.
Proof.
  unfold select_csv_file. cbv zeta.
  set (choice := if bool_decide (strip answer = []) then py "1" else strip answer).
  case_bool_decide as Hfiles.
  { subst csv_files. split; [done|]. intros (n & _ & Hn & _). simpl in Hn. lia. }
  destruct (int choice) as [n|]; [|split; [done | by intros (? & ? & _)]].
  destruct (Z.leb_spec 0 (n - 1)) as [Hlow|Hlow];
    destruct (Z.ltb_spec (n - 1) (Z.of_nat (length csv_files))) as [Hhigh|Hhigh];
    cbn [andb]; try (split; [done | intros (? & [= <-] & ? & _); lia]).
  unfold getitem. destruct (Z.ltb_spec (n - 1) 0) as [?|_]; [lia|].
  split.
  - intros Hf. exists n. split; [done|]. split; [lia | done].
  - by intros (? & [= <-] & _ & Hf).
Qed.

(** ** The infrastructure mapper *)













(** X26.  The names [search_certificates] adds to [all_domains] are not
    empty, are in lower case and do not start with [*]; the set only
    grows, whatever the two requests give. *)
Theorem search_certificates_names (World : Type)
    (crt_get : str → World → crt_answer * World) (sleep : Z → World → World)
    (all_domains : gset str) (w : World) :
  all_domains ⊆ (search_certificates World crt_get sleep all_domains w).1
  ∧ set_Forall
      (λ d, d ∈ all_domains
            ∨ (d ≠ [] ∧ lower d = d ∧ startswith (py "*") d = false))
      (search_certificates World crt_get sleep all_domains w).1.
Proof.
  set (good := λ all : gset str,
         all_domains ⊆ all
         ∧ set_Forall (λ d, d ∈ all_domains
                            ∨ (d ≠ [] ∧ lower d = d ∧ startswith (py "*") d = false))
             all).
  assert (∀ name all, good all → good (add_names name all)) as Hnames.
  { intros name all. unfold add_names. generalize (split 10%N name) as fields.
    intros fields. revert all.
    induction fields as [|field fields IH]; intros all Hall; [done|].
    cbn [foldl]. apply IH. cbv zeta.
    case_bool_decide as Hne; cbn [negb andb]; [done|].
    destruct (startswith (py "*") (lower (strip field))) eqn:Hstar; cbn [negb]; [done|].
    destruct Hall as [Hsub Hall]. split; [set_solver|].
    intros d [->%elem_of_singleton | Hd]%elem_of_union; [|by apply Hall].
    right. split; [done|]. split; [apply lower_idem | done]. }
  assert (∀ entries all, good all → good (add_entries entries all).1) as Hentries.
  { induction entries as [|[name|] entries IH]; intros all Hall; [done| |done].
    cbn [add_entries]. by apply IH, Hnames. }
  assert (∀ tlds all w, good all → good (search_tlds World crt_get sleep tlds all w).1)
    as Htlds.
  { induction tlds as [|tld tlds IH]; intros all w0 Hall; [done|].
    cbn [search_tlds]. destruct (crt_get _ w0) as [[|status [entries|]] w1].
    - by apply IH.
    - destruct (status =? 200); [|by apply IH].
      specialize (Hentries entries all Hall).
      destruct (add_entries entries all) as [all' finished]. by apply IH.
    - destruct (status =? 200); by apply IH. }
  apply Htlds. split; [done|]. intros d Hd. by left.
Qed.

Lemma enumerate_words_names (World : Type)
    (resolve : str → World → (list str + exn) * World) (sleep : Z → World → World)
    (base : str) (all_words words : list str) (found : list Subdomain) (w : World) :
  Forall (λ s, sub_method s = py "dns_enum"
               ∧ ∃ word, word ∈ all_words ∧ sub_domain s = word ++ py "." ++ base)
    found →
  words ⊆ all_words →
  Forall (λ s, sub_method s = py "dns_enum"
               ∧ ∃ word, word ∈ all_words ∧ sub_domain s = word ++ py "." ++ base)
    (enumerate_words World resolve sleep base words found w).1.
Proof.
  revert found w.
  induction words as [|word words IH]; intros found w0 Hfound Hwords; [done|].
  cbn [enumerate_words].
  destruct (resolve _ w0) as [[ips|e] w1].
  - apply IH; [|set_solver].
    apply Forall_app. split; [done|]. apply Forall_map, Forall_forall.
    intros ip _. split; [done|]. exists word. split; [set_solver | done].
  - apply IH; [done | set_solver].
Qed.

(** X27.  Every subdomain [enumerate_subdomains] reports is a word of the
    word list in front of the base domain, marked [dns_enum], whichever
    lookups fail. *)
Theorem enumerate_subdomains_names (World : Type)
    (resolve : str → World → (list str + exn) * World) (sleep : Z → World → World)
    (base : str) (words : list str) (w : World) :
  Forall (λ s, sub_method s = py "dns_enum"
               ∧ ∃ word, word ∈ words ∧ sub_domain s = word ++ py "." ++ base)
    (enumerate_subdomains World resolve sleep base words w).1.
Proof. unfold enumerate_subdomains. by apply enumerate_words_names. Qed.

Lemma elem_of_sorted (X : gset str) (s : str) : s ∈ sorted X ↔ s ∈ X.
Proof. unfold sorted. by rewrite merge_sort_Permutation, elem_of_elements. Qed.

Lemma elem_of_base_domains (all_domains : gset str) (base : str) :
  base ∈ base_domains all_domains
  ↔ ∃ domain, domain ∈ all_domains ∧ base_domain domain = Some base.
Proof.
  unfold base_domains. rewrite elem_of_list_to_set, list_elem_of_omap.
  by setoid_rewrite elem_of_elements.
Qed.

(** X28.  The subdomains the mapper reports are all of the form
    [word.base], where the word is one of the thirty of the word list and
    the base is made of the last two labels of a name the certificate
    search found; none is reported when the search found no name. *)
Theorem mapper_run_subdomains (World : Type)
    (crt_get : str → World → crt_answer * World)
    (resolve : str → World → (list str + exn) * World) (sleep : Z → World → World)
    (w : World) :
  let '(all_domains, subdomain_results, _) :=
    mapper_run World crt_get resolve sleep w in
  Forall (λ s, sub_method s = py "dns_enum"
               ∧ ∃ word domain base,
                   word ∈ wordlist ∧ domain ∈ all_domains
                   ∧ base_domain domain = Some base
                   ∧ sub_domain s = word ++ py "." ++ base)
    subdomain_results
  ∧ (all_domains = ∅ → subdomain_results = []).
Proof.
  unfold mapper_run.
  destruct (search_certificates _ _ _ _ w) as [all_domains w1].
  unfold check_all_subdomains.
  assert (∀ bases found w0,
    bases ⊆ sorted (base_domains all_domains) →
    Forall (λ s, sub_method s = py "dns_enum"
                 ∧ ∃ word domain base,
                     word ∈ wordlist ∧ domain ∈ all_domains
                     ∧ base_domain domain = Some base
                     ∧ sub_domain s = word ++ py "." ++ base) found →
    Forall (λ s, sub_method s = py "dns_enum"
                 ∧ ∃ word domain base,
                     word ∈ wordlist ∧ domain ∈ all_domains
                     ∧ base_domain domain = Some base
                     ∧ sub_domain s = word ++ py "." ++ base)
      (check_bases World resolve sleep bases found w0).1) as Hloop.
  { induction bases as [|base bases IH]; intros found w0 Hbases Hfound; [done|].
    unfold check_bases; fold (check_bases World resolve sleep).
    pose proof (enumerate_words_names World resolve sleep base wordlist wordlist
                  [] w0 (Forall_nil_2 _) (reflexivity _)) as Hnew.
    unfold enumerate_subdomains.
    destruct (enumerate_words World resolve sleep base wordlist [] w0)
      as [results w2].
    apply IH; [set_solver|]. apply Forall_app. split; [done|].
    assert (base ∈ base_domains all_domains) as Hbase
      by (apply elem_of_sorted, Hbases; by left).
    apply elem_of_base_domains in Hbase as (domain & Hdomain & Hbase).
    eapply Forall_impl; [exact Hnew|].
    intros s [Hmethod (word & Hword & Hs)]. split; [done|].
    by exists word, domain, base. }
  specialize (Hloop (sorted (base_domains all_domains)) [] w1
                (reflexivity _) (Forall_nil_2 _)).
  destruct (check_bases _ _ _ _ _ w1) as [subdomain_results w2] eqn:Hrun.
  split; [done|]. intros ->.
  assert (sorted (base_domains ∅) = []) as Hnone by reflexivity.
  rewrite Hnone in Hrun. by injection Hrun as <- _.
Qed.
